(** * mfma_on_cpu_threads.cc: a 16x16x4 f32 MFMA emulated by 64 CPU threads

    The development embeds [src/mfma_on_cpu_threads.cc]:
    - scalars are IEEE binary32 values ([spec_float] at precision 24,
      exponent bound 128, round to nearest even), each product and each
      sum of line 48 rounded on its own; [floatx4_t] is a record of four
      of them.  A NaN has no payload in [spec_float];
    - [int] values are [Z]; division and remainder truncate toward zero
      ([Z.quot], [Z.rem]) as in C++.  No intermediate of the index
      arithmetic can leave the 32-bit range, so no wrap-around is written;
    - arrays are lists, read and written through [load] and [store], which
      make an access outside the array [Undefined];
    - [assert] is compiled in (the build line of the file defines no
      NDEBUG) and a failing one is the outcome [AssertFailed];
    - the bodies of [cpu_mfma_f32_16x16x4f32], of the kernel and of
      [thread_func] are given a small-step semantics, one step per
      statement, over a state holding the workers, the two static tiles,
      the static barrier and the arrays [a], [b], [c].  A schedule (the
      list of workers that move, in order) replaces the thread scheduler:
      the executions are the interleavings of the workers' statements. *)

From Stdlib Require Import String ZArith Lia SpecFloat.
From stdpp Require Import base list.

Local Open Scope Z_scope.

(** ** Scalars: [float] and [floatx4_t] *)

Definition float : Type := spec_float.

Definition fadd (x y : float) : float := SFadd 24 128 x y.
Definition fmul (x y : float) : float := SFmul 24 128 x y.

(** [static_cast<float>(i)] *)
Definition float_of_int (i : Z) : float := binary_normalize 24 128 i 0 false.

(** the implicit conversion [bool -> float] of lines 64-65 *)
Definition float_of_bool (b : bool) : float :=
  if b then float_of_int 1 else float_of_int 0.

Definition fzero : float := S754_zero false.

#[global] Instance float_inhabited : Inhabited float := populate fzero.

Record floatx4_t : Type := Floatx4 { v0 : float; v1 : float; v2 : float; v3 : float }.

Definition vzero : floatx4_t := Floatx4 fzero fzero fzero fzero.

#[global] Instance floatx4_inhabited : Inhabited floatx4_t := populate vzero.

(** ** Outcomes of running code

    [AssertFailed] is the abort of a failing [assert]; [Undefined] is an
    access outside an array (undefined behaviour in C++); [Blocked] is a
    thread that cannot move now. *)

Inductive outcome (A : Type) : Type :=
| Ok (x : A)
| AssertFailed
| Undefined
| Blocked.
Arguments Ok {A} x.
Arguments AssertFailed {A}.
Arguments Undefined {A}.
Arguments Blocked {A}.

Definition obind {A B : Type} (f : A -> outcome B) (m : outcome A) : outcome B :=
  match m with
  | Ok x => f x
  | AssertFailed => AssertFailed
  | Undefined => Undefined
  | Blocked => Blocked
  end.

#[global] Instance outcome_mbind : MBind outcome := @obind.
#[global] Instance outcome_mret : MRet outcome := @Ok.
#[global] Instance outcome_fmap : FMap outcome :=
  fun A B (f : A -> B) (m : outcome A) => obind (fun x => Ok (f x)) m.

(** ** Arrays indexed by an [int] *)

Definition in_bounds {X : Type} (l : list X) (i : Z) : bool :=
  (0 <=? i) && (i <? Z.of_nat (length l)).

Definition load {X : Type} (l : list X) (i : Z) : outcome X :=
  if in_bounds l i then
    match l !! Z.to_nat i with Some x => Ok x | None => Undefined end
  else Undefined.

Definition store {X : Type} (l : list X) (i : Z) (x : X) : outcome (list X) :=
  if in_bounds l i then Ok (<[Z.to_nat i := x]> l) else Undefined.

(** [c[p]] on a vector value: only components 0..3 exist. *)
Definition vget (c : floatx4_t) (p : Z) : outcome float :=
  match p with
  | 0 => Ok (v0 c)
  | 1 => Ok (v1 c)
  | 2 => Ok (v2 c)
  | 3 => Ok (v3 c)
  | _ => Undefined
  end.

Definition vset (c : floatx4_t) (p : Z) (x : float) : outcome floatx4_t :=
  match p with
  | 0 => Ok (Floatx4 x (v1 c) (v2 c) (v3 c))
  | 1 => Ok (Floatx4 (v0 c) x (v2 c) (v3 c))
  | 2 => Ok (Floatx4 (v0 c) (v1 c) x (v3 c))
  | 3 => Ok (Floatx4 (v0 c) (v1 c) (v2 c) x)
  | _ => Undefined
  end.

(** ** [cpu_mfma_f32_16x16x4f32], statement by statement *)

Definition threads_per_subgroup : Z := 64.

(** line 31: [assert(tid < threads_per_subgroup && "...")]; the string
    literal is a non-null pointer, so the condition is the comparison. *)
Definition assert_tid (tid : Z) : bool := tid <? threads_per_subgroup.

(** lines 44-45 *)
Definition lane_m (tid : Z) : Z := 4 * (Z.quot tid 16).
Definition lane_n (tid : Z) : Z := Z.rem tid 16.

Definition lane_mn (tid : Z) : Z * Z := (lane_m tid, lane_n tid).

(** the two subscripts of line 48 *)
Definition a_index (tid k p : Z) : Z := 16 * k + lane_m tid + p.
Definition b_index (tid k : Z) : Z := 16 * k + lane_n tid.

(** line 48: [c[p] += a_tile[16 * k + m + p] * b_tile[16 * k + n]] *)
Definition loop_body (tid : Z) (a_tile b_tile : list float) (k p : Z)
    (c : floatx4_t) : outcome floatx4_t :=
  x ← load a_tile (a_index tid k p);
  y ← load b_tile (b_index tid k);
  cp ← vget c p;
  vset c p (fadd cp (fmul x y)).

(** a [for] loop over consecutive indices *)
Fixpoint for_each {A : Type} (idx : list Z) (body : Z -> A -> outcome A)
    (x : A) : outcome A :=
  match idx with
  | [] => Ok x
  | i :: rest => y ← body i x; for_each rest body y
  end.

(** lines 46-50 *)
Definition mfma_loops (tid : Z) (a_tile b_tile : list float)
    (c : floatx4_t) : outcome floatx4_t :=
  for_each (seqZ 0 4)
    (fun k c1 => for_each (seqZ 0 4) (fun p c2 => loop_body tid a_tile b_tile k p c2) c1)
    c.

(** The two static tiles. *)
Record tiles_t : Type := Tiles { a_tile : list float; b_tile : list float }.

(** lines 34-35: static storage is zero-initialised *)
Definition tiles_init : tiles_t :=
  Tiles (replicate (Z.to_nat threads_per_subgroup) fzero)
        (replicate (Z.to_nat threads_per_subgroup) fzero).

(** lines 38-39 *)
Definition publish (tid : Z) (a b : float) (t : tiles_t) : outcome tiles_t :=
  at' ← store (a_tile t) tid a;
  bt' ← store (b_tile t) tid b;
  Ok (Tiles at' bt').

(** The whole function as seen by the last lane to reach the barrier:
    the other lanes' slots are already filled in [t], so the wait of
    line 42 returns at once.  Lines 41-42 themselves are statements of
    [lane_step] below, where a worker that is not the last to arrive
    stops at the wait; the section on one call by lane id relates the
    two. *)
Definition cpu_mfma_f32_16x16x4f32 (tid : Z) (a b : float) (c : floatx4_t)
    (t : tiles_t) : outcome (floatx4_t * tiles_t) :=
  if assert_tid tid then
    t' ← publish tid a b t;
    c' ← mfma_loops tid (a_tile t') (b_tile t') c;
    Ok (c', t')
  else AssertFailed.

(** line 58, for the same lane: [c[tid] = cpu_mfma_f32_16x16x4f32(a[tid],
    b[tid], c[tid])] *)
Definition matmul_kernel_f32_16x16x4f32 (tid : Z) (a b : list float)
    (c : list floatx4_t) (t : tiles_t) : outcome (list floatx4_t * tiles_t) :=
  x ← load a tid;
  y ← load b tid;
  ci ← load c tid;
  r ← cpu_mfma_f32_16x16x4f32 tid x y ci t;
  c' ← store c tid (fst r);
  Ok (c', snd r).

(** ** The result in closed form

    [acc4 c t0 t1 t2 t3] is the accumulation of four terms onto [c] in the
    order of increasing [k], the order in which line 48 runs. *)
Definition acc4 (c t0 t1 t2 t3 : float) : float :=
  fadd (fadd (fadd (fadd c t0) t1) t2) t3.

Definition tile_at (l : list float) (i : Z) : float := l !!! Z.to_nat i.

Definition term (a_tile b_tile : list float) (tid k p : Z) : float :=
  fmul (tile_at a_tile (a_index tid k p)) (tile_at b_tile (b_index tid k)).

Definition lane_component (a_tile b_tile : list float) (tid p : Z) (cp : float) : float :=
  acc4 cp (term a_tile b_tile tid 0 p) (term a_tile b_tile tid 1 p)
          (term a_tile b_tile tid 2 p) (term a_tile b_tile tid 3 p).

Definition lane_result (a_tile b_tile : list float) (tid : Z) (c : floatx4_t) : floatx4_t :=
  Floatx4 (lane_component a_tile b_tile tid 0 (v0 c))
          (lane_component a_tile b_tile tid 1 (v1 c))
          (lane_component a_tile b_tile tid 2 (v2 c))
          (lane_component a_tile b_tile tid 3 (v3 c)).

(** ** [std::barrier]

    The barrier of line 41 is built with an expected count of
    [threads_per_subgroup] and an empty completion function.  Following the
    C++20 library, [arrive] decrements the pending count of the current
    phase and returns a token for that phase; when the count reaches zero
    the phase ends, the next one starts and the count is reset to the
    expected count; [wait] on a token returns once the token's phase has
    ended.  [arrive_and_wait()] is [wait(arrive())]. *)

Record barrier_t : Type := Barrier { expected : Z; pending : Z; phase : nat }.

Definition barrier_init : barrier_t :=
  Barrier threads_per_subgroup threads_per_subgroup 0.

Definition barrier_arrive (b : barrier_t) : barrier_t * nat :=
  if pending b - 1 =? 0
  then (Barrier (expected b) (expected b) (S (phase b)), phase b)
  else (Barrier (expected b) (pending b - 1) (phase b), phase b).

Definition barrier_released (b : barrier_t) (tok : nat) : bool :=
  (tok <? phase b)%nat.

(** ** Workers

    A worker is at one of the statements below.  [ThreadEntry i] is the
    start of [thread_func] (line 122), [KernelEntry] and [KernelStore] are
    the two halves of line 58 (operands read and call; result stored),
    the others are statements of [cpu_mfma_f32_16x16x4f32]: line 31, 38,
    39, the two halves of line 42, and the loop nest of lines 46-50 about
    to test [k < 4] and [p < 4]. *)

Inductive pc_t : Type :=
| ThreadEntry (tid_arg : Z)
| KernelEntry
| AssertTid
| PublishA
| PublishB
| BarrierArrive
| BarrierWait (tok : nat)
| Loop (k p : Z)
| KernelStore
| Finished.

(** [tid] is the thread-local of line 26; [arg_a], [arg_b], [arg_c] are
    the parameters [a], [b], [c] of the running call.  [main] has each
    worker call the kernel once; [more_calls] lets a worker issue that
    many further calls on the same static tiles and barrier (0 in
    [main]), and [round] counts the calls it has completed. *)
Record lane : Type := Lane {
  tid : Z;
  pc : pc_t;
  arg_a : float;
  arg_b : float;
  arg_c : floatx4_t;
  round : nat;
  more_calls : nat
}.

Record shared_t : Type := Shared {
  tiles : tiles_t;
  barrier : barrier_t;
  mem_a : list float;
  mem_b : list float;
  mem_c : list floatx4_t
}.

Definition set_pc (l : lane) (q : pc_t) : lane :=
  Lane (tid l) q (arg_a l) (arg_b l) (arg_c l) (round l) (more_calls l).

Definition set_tiles (s : shared_t) (t : tiles_t) : shared_t :=
  Shared t (barrier s) (mem_a s) (mem_b s) (mem_c s).

Definition set_barrier (s : shared_t) (b : barrier_t) : shared_t :=
  Shared (tiles s) b (mem_a s) (mem_b s) (mem_c s).

Definition set_mem_c (s : shared_t) (c : list floatx4_t) : shared_t :=
  Shared (tiles s) (barrier s) (mem_a s) (mem_b s) c.

(** the loop nest of lines 46-50, one test or one body per step *)
Definition loop_step (l : lane) (t : tiles_t) (k p : Z) : outcome lane :=
  if k <? 4 then
    if p <? 4 then
      c' ← loop_body (tid l) (a_tile t) (b_tile t) k p (arg_c l);
      Ok (Lane (tid l) (Loop k (p + 1)) (arg_a l) (arg_b l) c' (round l) (more_calls l))
    else Ok (set_pc l (Loop (k + 1) 0))
  else Ok (set_pc l KernelStore).

(** what the worker does after the store of line 58 *)
Definition after_call (l : lane) : lane :=
  match more_calls l with
  | O => Lane (tid l) Finished (arg_a l) (arg_b l) (arg_c l) (S (round l)) O
  | S n => Lane (tid l) KernelEntry (arg_a l) (arg_b l) (arg_c l) (S (round l)) n
  end.

(** One step of one worker. *)
Definition lane_step (l : lane) (s : shared_t) : outcome (lane * shared_t) :=
  match pc l with
  | ThreadEntry i =>
      Ok (Lane i KernelEntry (arg_a l) (arg_b l) (arg_c l) (round l) (more_calls l), s)
  | KernelEntry =>
      a ← load (mem_a s) (tid l);
      b ← load (mem_b s) (tid l);
      c ← load (mem_c s) (tid l);
      Ok (Lane (tid l) AssertTid a b c (round l) (more_calls l), s)
  | AssertTid =>
      if assert_tid (tid l) then Ok (set_pc l PublishA, s) else AssertFailed
  | PublishA =>
      at' ← store (a_tile (tiles s)) (tid l) (arg_a l);
      Ok (set_pc l PublishB, set_tiles s (Tiles at' (b_tile (tiles s))))
  | PublishB =>
      bt' ← store (b_tile (tiles s)) (tid l) (arg_b l);
      Ok (set_pc l BarrierArrive, set_tiles s (Tiles (a_tile (tiles s)) bt'))
  | BarrierArrive =>
      let '(b', tok) := barrier_arrive (barrier s) in
      Ok (set_pc l (BarrierWait tok), set_barrier s b')
  | BarrierWait tok =>
      if barrier_released (barrier s) tok then Ok (set_pc l (Loop 0 0), s) else Blocked
  | Loop k p =>
      l' ← loop_step l (tiles s) k p;
      Ok (l', s)
  | KernelStore =>
      c' ← store (mem_c s) (tid l) (arg_c l);
      Ok (after_call l, set_mem_c s c')
  | Finished => Blocked
  end.

Record state : Type := State { lanes : list lane; sh : shared_t }.

(** Worker number [i] makes one step. *)
Definition step (i : nat) (s : state) : outcome state :=
  match lanes s !! i with
  | None => Blocked
  | Some l =>
      r ← lane_step l (sh s);
      Ok (State (<[i := fst r]> (lanes s)) (snd r))
  end.

(** A schedule names the workers that move, in order. *)
Fixpoint run (sched : list nat) (s : state) : outcome state :=
  match sched with
  | [] => Ok s
  | i :: rest => s' ← step i s; run rest s'
  end.

(** lines 119-126: one worker per lane id, each entering [thread_func]
    with its own [tid_arg]. *)
Definition spawn (more : nat) (i : Z) : lane :=
  Lane 0 (ThreadEntry i) fzero fzero vzero 0 more.

Definition launch_calls (calls_after_first : nat) (a b : list float)
    (c : list floatx4_t) : state :=
  State (spawn calls_after_first <$> seqZ 0 threads_per_subgroup)
        (Shared tiles_init barrier_init a b c).

(** the launch of [main] *)
Definition launch (a b : list float) (c : list floatx4_t) : state :=
  launch_calls 0 a b c.

Definition is_finished (l : lane) : bool :=
  match pc l with Finished => true | _ => false end.

(** every worker has returned: the join at the end of the block of
    lines 118-127 *)
Definition complete (s : state) : bool := forallb is_finished (lanes s).

(** the schedule that lets worker 0, 1, ..., 63 each make one step,
    [n] times over *)
Definition round_robin (n : nat) : list nat :=
  concat (replicate n (seq 0 (Z.to_nat threads_per_subgroup))).

(** ** [init_test_matrices] (lines 62-68) *)

Definition init_body (i : Z) (m : list float * list float * list floatx4_t)
    : outcome (list float * list float * list floatx4_t) :=
  a' ← store (fst (fst m)) i (float_of_bool (Z.quot i 16 =? Z.rem i 4));
  b' ← store (snd (fst m)) i (float_of_bool (Z.quot i 16 =? Z.rem i 4));
  c' ← store (snd m) i (Floatx4 (float_of_int i) (float_of_int 0) (float_of_int 0) (float_of_int 0));
  Ok (a', b', c').

Definition init_test_matrices (a b : list float) (c : list floatx4_t)
    : outcome (list float * list float * list floatx4_t) :=
  for_each (seqZ 0 64) init_body (a, b, c).

(** ** The arrays as matrices

    [print_a_matrix] shows element (m, k) of A from [a[16 * k + m]],
    [print_b_matrix] shows element (k, n) of B from [b[16 * k + n]], and
    [print_c_matrix] shows row [m + p], column [n] of C from
    [c[4 * m + n][p]] for [m] in 0, 4, 8, 12 and [p] in 0..3. *)

Definition vtotal (c : floatx4_t) (p : Z) : float :=
  match vget c p with Ok x => x | _ => fzero end.

Definition A_elem (a : list float) (m k : Z) : float := tile_at a (16 * k + m).
Definition B_elem (b : list float) (k n : Z) : float := tile_at b (16 * k + n).
Definition C_elem (c : list floatx4_t) (row col : Z) : float :=
  vtotal (c !!! Z.to_nat (4 * (4 * (row / 4)) + col)) (row mod 4).

(** The reference of the identity-matrix scenario, written from its
    description and not from the lane code: the 16x16x4
    multiply-accumulate on matrices, where the dot product of row [row]
    of A and column [col] of B is summed on its own, from zero, and then
    added to the element of C. *)
Definition dot4 (a b : list float) (row col : Z) : float :=
  fold_left (fun acc k => fadd acc (fmul (A_elem a row k) (B_elem b k col)))
            (seqZ 0 4) fzero.

Definition reference_mma (a b : list float) (c : list floatx4_t) (row col : Z) : float :=
  fadd (C_elem c row col) (dot4 a b row col).

(** The accumulation line 48 performs for one element of C: the four
    products are added onto the old value one by one, [k] increasing. *)
Definition mma_elem (a b : list float) (c : list floatx4_t) (row col : Z) : float :=
  fold_left (fun acc k => fadd acc (fmul (A_elem a row k) (B_elem b k col)))
            (seqZ 0 4) (C_elem c row col).

(** the whole array [c] after one instruction *)
Definition mfma_all (a b : list float) (c : list floatx4_t) : list floatx4_t :=
  imap (fun i ci => lane_result a b (Z.of_nat i) ci) c.

(** ** Auxiliary notions for the proofs *)

(** what is left of the loop nest from position (k, p); [None] when the
    fuel does not suffice *)
Fixpoint loop_rest (fuel : nat) (tid : Z) (at' bt : list float) (k p : Z)
    (c : floatx4_t) : option (outcome floatx4_t) :=
  match fuel with
  | O => None
  | S fuel' =>
      if k <? 4 then
        if p <? 4 then
          match loop_body tid at' bt k p c with
          | Ok c' => loop_rest fuel' tid at' bt k (p + 1) c'
          | other => Some other
          end
        else loop_rest fuel' tid at' bt (k + 1) 0 c
      else Some (Ok c)
  end.

Fixpoint count {A : Type} (f : A -> bool) (l : list A) : nat :=
  match l with
  | [] => 0
  | x :: r => (if f x then 1 else 0) + count f r
  end%nat.

Fixpoint total {A : Type} (f : A -> nat) (l : list A) : nat :=
  match l with
  | [] => 0
  | x :: r => f x + total f r
  end%nat.

(** the number of steps the loop nest still makes from position (k, p) *)
Definition loop_steps_left (k p : Z) : nat :=
  if k <? 4
  then (Z.to_nat (4 - p) + 1 + 5 * Z.to_nat (3 - k) + 1)%nat
  else 1%nat.

(** the number of steps a worker still makes *)
Definition steps_left (l : lane) : nat :=
  (28 * more_calls l +
   match pc l with
   | ThreadEntry _ => 29
   | KernelEntry => 28
   | AssertTid => 27
   | PublishA => 26
   | PublishB => 25
   | BarrierArrive => 24
   | BarrierWait _ => 23
   | Loop k p => 1 + loop_steps_left k p
   | KernelStore => 1
   | Finished => 0
   end)%nat.

(** the statements after the arrival of line 42, within one call *)
Definition arrived_pc (q : pc_t) : bool :=
  match q with
  | BarrierWait _ | Loop _ _ | KernelStore => true
  | _ => false
  end.

(** how many times a worker has arrived at the barrier: once in each call
    it has completed, and once more if the running call is past its
    arrival *)
Definition arrivals (l : lane) : nat :=
  (round l + (if arrived_pc (pc l) then 1 else 0))%nat.

(** the statements that read the tiles: the loop nest *)
Definition reads_tiles (q : pc_t) : bool :=
  match q with Loop _ _ => true | _ => false end.

(** the statements after the wait of line 42 has returned *)
Definition passed_barrier (q : pc_t) : bool :=
  match q with
  | Loop _ _ | KernelStore | Finished => true
  | _ => false
  end.

Definition waits_in (ph : nat) (l : lane) : bool :=
  match pc l with
  | BarrierWait tok => (tok =? ph)%nat
  | _ => false
  end.

Definition lane_ok (ph : nat) (l : lane) : Prop :=
  match pc l with
  | BarrierWait tok => tok = round l /\ (round l = ph \/ S (round l) = ph)
  | Loop _ _ | KernelStore => S (round l) = ph
  | _ => round l = ph
  end.

Definition barrier_inv (s : state) : Prop :=
  length (lanes s) = 64%nat /\
  expected (barrier (sh s)) = 64 /\
  Forall (lane_ok (phase (barrier (sh s)))) (lanes s) /\
  pending (barrier (sh s))
    = 64 - Z.of_nat (count (waits_in (phase (barrier (sh s)))) (lanes s)) /\
  0 < pending (barrier (sh s)).

(** What is known of worker [i] of [launch a b c0], statement by
    statement; [ta], [tb], [mc] are slot [i] of the two tiles and of [c]. *)
Definition args_ok (a b : list float) (c0 : list floatx4_t) (i : nat) (l : lane) : Prop :=
  a !! i = Some (arg_a l) /\ b !! i = Some (arg_b l) /\ c0 !! i = Some (arg_c l).

Definition lane_inv (a b : list float) (c0 : list floatx4_t)
    (ta tb : option float) (mc : option floatx4_t) (i : nat) (l : lane) : Prop :=
  more_calls l = 0%nat /\
  match pc l with
  | ThreadEntry t => t = Z.of_nat i /\ round l = 0%nat /\ mc = c0 !! i
  | KernelEntry => tid l = Z.of_nat i /\ round l = 0%nat /\ mc = c0 !! i
  | AssertTid | PublishA =>
      tid l = Z.of_nat i /\ round l = 0%nat /\ mc = c0 !! i /\ args_ok a b c0 i l
  | PublishB =>
      tid l = Z.of_nat i /\ round l = 0%nat /\ mc = c0 !! i /\ args_ok a b c0 i l /\
      ta = a !! i
  | BarrierArrive | BarrierWait _ =>
      tid l = Z.of_nat i /\ round l = 0%nat /\ mc = c0 !! i /\ args_ok a b c0 i l /\
      ta = a !! i /\ tb = b !! i
  | Loop k p =>
      tid l = Z.of_nat i /\ round l = 0%nat /\ mc = c0 !! i /\
      ta = a !! i /\ tb = b !! i /\
      exists fuel c, c0 !! i = Some c /\
        loop_rest fuel (Z.of_nat i) a b k p (arg_c l)
          = Some (Ok (lane_result a b (Z.of_nat i) c))
  | KernelStore =>
      tid l = Z.of_nat i /\ round l = 0%nat /\ mc = c0 !! i /\
      ta = a !! i /\ tb = b !! i /\
      exists c, c0 !! i = Some c /\ arg_c l = lane_result a b (Z.of_nat i) c
  | Finished =>
      tid l = Z.of_nat i /\ round l = 1%nat /\ ta = a !! i /\ tb = b !! i /\
      exists c, c0 !! i = Some c /\ mc = Some (lane_result a b (Z.of_nat i) c)
  end.

Definition data_inv (a b : list float) (c0 : list floatx4_t) (s : state) : Prop :=
  mem_a (sh s) = a /\ mem_b (sh s) = b /\
  length (a_tile (tiles (sh s))) = 64%nat /\
  length (b_tile (tiles (sh s))) = 64%nat /\
  length (mem_c (sh s)) = 64%nat /\
  forall i l, lanes s !! i = Some l ->
    lane_inv a b c0 (a_tile (tiles (sh s)) !! i) (b_tile (tiles (sh s)) !! i)
             (mem_c (sh s) !! i) i l.

(** ** Concrete inputs used to exercise the statements *)

Definition zeros64 : list float := replicate 64 fzero.
Definition vzeros64 : list floatx4_t := replicate 64 vzero.

Definition test_matrices : list float * list float * list floatx4_t :=
  match init_test_matrices zeros64 zeros64 vzeros64 with
  | Ok m => m
  | _ => ([], [], [])
  end.

Definition test_a : list float := fst (fst test_matrices).
Definition test_b : list float := snd (fst test_matrices).
Definition test_c : list floatx4_t := snd test_matrices.

Definition final_or {A : Type} (d : A) (r : outcome A) : A :=
  match r with Ok x => x | _ => d end.

(** the state [main] reaches under the round-robin schedule *)
Definition test_final : state :=
  final_or (launch test_a test_b test_c)
           (run (round_robin 29) (launch test_a test_b test_c)).

(** the same launch stopped when every worker is about to execute line
    38, and when every worker is about to store its result *)
Definition test_publishing : state :=
  final_or (launch test_a test_b test_c)
           (run (round_robin 3) (launch test_a test_b test_c)).

Definition test_storing : state :=
  final_or (launch test_a test_b test_c)
           (run (round_robin 28) (launch test_a test_b test_c)).

(** the same launch with the workers taken in the opposite order *)
Definition reverse_robin (n : nat) : list nat :=
  concat (replicate n (reverse (seq 0 (Z.to_nat threads_per_subgroup)))).

Definition test_final_rev : state :=
  final_or (launch test_a test_b test_c)
           (run (reverse_robin 29) (launch test_a test_b test_c)).

(** a launch in which every worker issues two calls, stopped when the
    workers are in the loop nest of their second call *)
Definition test_second_round : state :=
  final_or (launch_calls 1 test_a test_b test_c)
           (run (round_robin 35) (launch_calls 1 test_a test_b test_c)).


(** does the schedule run the state to the end of every worker? *)
Definition completes (sched : list nat) (s : state) : bool :=
  match run sched s with Ok s' => complete s' | _ => false end.

(** ** Memory locations and the accesses of a statement

    The shared objects a statement reads or writes, element by element:
    the arrays [a], [b], [c] behind the kernel's pointers and the two
    static tiles.  The barrier is a synchronisation object and is left
    out. *)

Inductive loc : Type :=
| LocA (i : Z)
| LocB (i : Z)
| LocC (i : Z)
| LocATile (i : Z)
| LocBTile (i : Z).

Definition loc_eqb (x y : loc) : bool :=
  match x, y with
  | LocA i, LocA j => i =? j
  | LocB i, LocB j => i =? j
  | LocC i, LocC j => i =? j
  | LocATile i, LocATile j => i =? j
  | LocBTile i, LocBTile j => i =? j
  | _, _ => false
  end.

(** what the next statement of a worker writes: line 38, line 39 and the
    store of line 58 *)
Definition next_writes (l : lane) : list loc :=
  match pc l with
  | PublishA => [LocATile (tid l)]
  | PublishB => [LocBTile (tid l)]
  | KernelStore => [LocC (tid l)]
  | _ => []
  end.

(** what it reads: the operands of line 58 and the two tile elements of
    line 48 *)
Definition next_reads (l : lane) : list loc :=
  match pc l with
  | KernelEntry => [LocA (tid l); LocB (tid l); LocC (tid l)]
  | Loop k p =>
      if (k <? 4) && (p <? 4)
      then [LocATile (a_index (tid l) k p); LocBTile (b_index (tid l) k)]
      else []
  | _ => []
  end.

(** the next statement of [w] writes what the next statement of [r] reads
    or writes *)
Definition races (w r : lane) : bool :=
  existsb (fun x => existsb (loc_eqb x) (next_reads r ++ next_writes r)) (next_writes w).





(** ** The printing helpers (lines 70-106)

    The output is the sequence of [printf] calls: [Label s] stands for
    the text of ["%s:"], [Num x] for the text ["%4g "] makes of [x] (the
    digits are not modelled), [Newline] for a line feed. *)

Inductive token : Type :=
| Label (s : string)
| Num (x : float)
| Newline.

(** a [for] loop whose body prints *)
Fixpoint print_each (idx : list Z) (body : Z -> outcome (list token))
    : outcome (list token) :=
  match idx with
  | [] => Ok []
  | i :: rest => out ← body i; more ← print_each rest body; Ok (out ++ more)
  end.

(** lines 71-80 *)
Definition print_a_matrix (label : string) (a : list float) : outcome (list token) :=
  body ← print_each (seqZ 0 16) (fun m =>
            row ← print_each (seqZ 0 4) (fun k =>
                    x ← load a (16 * k + m); Ok [Num x]);
            Ok (row ++ [Newline]));
  Ok ([Label label; Newline] ++ body ++ [Newline]).

(** lines 83-92 *)
Definition print_b_matrix (label : string) (b : list float) : outcome (list token) :=
  body ← print_each (seqZ 0 4) (fun k =>
            row ← print_each (seqZ 0 16) (fun n =>
                    x ← load b (16 * k + n); Ok [Num x]);
            Ok (row ++ [Newline]));
  Ok ([Label label; Newline] ++ body ++ [Newline]).

(** lines 95-106; [m] takes the values 0, 4, 8, 12 *)
Definition print_c_matrix (label : string) (c : list floatx4_t) : outcome (list token) :=
  body ← print_each [0; 4; 8; 12] (fun m =>
            print_each (seqZ 0 4) (fun p =>
              row ← print_each (seqZ 0 16) (fun n =>
                      ci ← load c (4 * m + n); x ← vget ci p; Ok [Num x]);
              Ok (row ++ [Newline])));
  Ok ([Label label; Newline] ++ body ++ [Newline]).

(** the numbers of an output, in the order printed *)
Fixpoint numbers (out : list token) : list float :=
  match out with
  | [] => []
  | Num x :: rest => x :: numbers rest
  | _ :: rest => numbers rest
  end.

(** the number of lines of an output *)
Definition line_feeds (out : list token) : nat :=
  count (fun t => match t with Newline => true | _ => false end) out.

(** ** [main] (lines 108-130)

    [a0], [b0], [c0] are what the three local arrays hold before they are
    initialised; the block of lines 118-127 ends when every worker has
    returned, so nothing is printed after it until then. *)
Definition main (a0 b0 : list float) (c0 : list floatx4_t) (sched : list nat)
    : outcome (list token) :=
  m ← init_test_matrices a0 b0 c0;
  o1 ← print_a_matrix "A matrix" (fst (fst m));
  o2 ← print_b_matrix "B matrix" (snd (fst m));
  o3 ← print_c_matrix "C matrix" (snd m);
  s ← run sched (launch (fst (fst m)) (snd (fst m)) (snd m));
  if complete s then
    o4 ← print_c_matrix "Result matrix" (mem_c (sh s));
    Ok (o1 ++ o2 ++ o3 ++ o4)
  else Blocked.

(** ** Further invariants *)

(** a cohort that the barrier cannot release: nobody is past the barrier
    and the first phase has not ended *)
Definition stuck_inv (s : state) : Prop :=
  (length (lanes s) < 64)%nat /\
  phase (barrier (sh s)) = 0%nat /\
  expected (barrier (sh s)) = 64 /\
  pending (barrier (sh s)) = 64 - Z.of_nat (count (waits_in 0) (lanes s)) /\
  Forall (fun l => passed_barrier (pc l) = false /\
                   forall tok, pc l = BarrierWait tok -> tok = 0%nat) (lanes s).

(** the calls a worker of [launch_calls n] has completed and has still to
    issue add up to [n + 1] *)
Definition calls_ok (n : nat) (l : lane) : Prop :=
  (round l + more_calls l + (if is_finished l then 0 else 1) = n + 1)%nat /\
  (is_finished l = true -> more_calls l = 0%nat).

(** a launch of 63 workers, and a state in which a worker of the second
    call is about to publish while another still reads the tiles of the
    first call *)
Definition test_partial : state :=
  State (take 63 (lanes (launch test_a test_b test_c)))
        (sh (launch test_a test_b test_c)).

(** worker [i] of a state *)
Definition worker_of (s : state) (i : nat) : lane :=
  match lanes s !! i with Some l => l | None => spawn 0 0 end.

Definition partial_schedule : list nat := concat (replicate 6 (seq 0 63)).

Definition test_partial_waiting : state :=
  final_or test_partial (run partial_schedule test_partial).

Definition second_call_schedule : list nat :=
  round_robin 7 ++ replicate 24 0%nat.

Definition test_two_calls_final : state :=
  final_or (launch_calls 1 test_a test_b test_c)
           (run (round_robin 57) (launch_calls 1 test_a test_b test_c)).


(** the [i]-th number of an output *)
Definition printed (out : list token) (i : Z) : float := numbers out !!! Z.to_nat i.

(** the tiles after a worker has executed lines 38-39 *)
Definition tiles_after_publish (l : lane) (t : tiles_t) : tiles_t :=
  Tiles (<[Z.to_nat (tid l) := arg_a l]> (a_tile t))
        (<[Z.to_nat (tid l) := arg_b l]> (b_tile t)).

(** the launch of [main] stopped when workers 0..62 wait at the barrier
    and worker 63 is about to execute line 31: worker 63 is the last to
    arrive *)
Definition last_lane_schedule : list nat :=
  round_robin 2 ++ concat (replicate 4 (seq 0 63)).

Definition test_last_lane : state :=
  final_or (launch test_a test_b test_c)
           (run last_lane_schedule (launch test_a test_b test_c)).

(** the launch stopped when worker 0 is about to execute line 39 and the
    others line 38 *)
Definition test_publishing_b : state :=
  final_or (launch test_a test_b test_c)
           (run (round_robin 3 ++ [0%nat]) (launch test_a test_b test_c)).

(* ================================================================== *)
(** * Properties *)

(** ** Worked values *)

Example lane_mn_17 : lane_mn 17 = (4, 1).
Proof. reflexivity. Qed.

Example lane_mn_63 : lane_mn 63 = (12, 15).
Proof. reflexivity. Qed.

Example a_index_63_3_3 : a_index 63 3 3 = 63.
Proof. reflexivity. Qed.

Example assert_tid_64 : assert_tid 64 = false.
Proof. reflexivity. Qed.

Example test_a_16 : test_a !! 16%nat = Some fzero /\ test_a !! 17%nat = Some (float_of_int 1).
Proof. split; reflexivity. Qed.

(** lane 5 of the identity scenario: row 1 of A meets column 5 of B in
    k = 1, so component 1 gains 1 and component 0 keeps the seed 5 *)
Example lane_5_of_test_final :
  mem_c (sh test_final) !! 5%nat
  = Some (Floatx4 (float_of_int 5) (float_of_int 1) fzero fzero).
Proof. vm_compute. reflexivity. Qed.

(** worker 17 executing line 38: slot 17 of the A tile receives a[17] = 1,
    its neighbours stay zero *)
Example publish_step_17 :
  pc <$> lanes test_publishing !! 17%nat = Some PublishA /\
  (fun s => take 3 (drop 16 (a_tile (tiles (sh s))))) <$> step 17 test_publishing
  = Ok [fzero; float_of_int 1; fzero].
Proof. split; vm_compute; reflexivity. Qed.

(** worker 3 executing the store of line 58 *)
Example store_step_3 :
  pc <$> lanes test_storing !! 3%nat = Some KernelStore /\
  (fun s => mem_c (sh s) !! 3%nat) <$> step 3 test_storing
  = Ok (Some (Floatx4 (float_of_int 3) fzero fzero (float_of_int 1))).
Proof. split; vm_compute; reflexivity. Qed.

(** a worker cannot leave the barrier before the last arrival *)
Example wait_blocks :
  run (round_robin 5 ++ seq 0 63 ++ [0%nat]) (launch test_a test_b test_c) = Blocked.
Proof. vm_compute. reflexivity. Qed.

(** binary32 addition is not associative: the order in which line 48
    accumulates is part of the result *)
Example fadd_not_associative :
  fadd (fadd (float_of_int 1) (S754_finite false 8388608 (-47)))
       (S754_finite false 8388608 (-47)) = float_of_int 1 /\
  fadd (float_of_int 1)
       (fadd (S754_finite false 8388608 (-47)) (S754_finite false 8388608 (-47)))
  = S754_finite false 8388609 (-23).
Proof. split; vm_compute; reflexivity. Qed.

(** ** Arrays *)

Section Arrays.
Context {X : Type} `{Inhabited X}.

Lemma in_bounds_true (l : list X) (i : Z) :
  in_bounds l i = true <-> 0 <= i < Z.of_nat (length l).
Proof. unfold in_bounds. rewrite andb_true_iff, Z.leb_le, Z.ltb_lt. tauto. Qed.

Lemma in_bounds_false (l : list X) (i : Z) :
  in_bounds l i = false <-> ~ (0 <= i < Z.of_nat (length l)).
Proof. rewrite <- in_bounds_true. destruct (in_bounds l i); split; congruence. Qed.

Lemma load_ok (l : list X) (i : Z) :
  0 <= i < Z.of_nat (length l) -> load l i = Ok (l !!! Z.to_nat i).
Proof.
  intros Hi. unfold load. rewrite (proj2 (in_bounds_true l i) Hi).
  destruct (lookup_lt_is_Some_2 l (Z.to_nat i)) as [x Hx]; [lia|].
  rewrite Hx. f_equal. symmetry. by apply list_lookup_total_correct.
Qed.

Lemma load_lookup (l : list X) (i : nat) (x : X) :
  l !! i = Some x -> load l (Z.of_nat i) = Ok x.
Proof.
  intros Hx. unfold load. pose proof (lookup_lt_Some _ _ _ Hx) as Hlt.
  rewrite (proj2 (in_bounds_true l (Z.of_nat i))) by lia.
  by rewrite Nat2Z.id, Hx.
Qed.

Lemma load_inv (l : list X) (i : Z) (x : X) :
  load l i = Ok x -> 0 <= i < Z.of_nat (length l) /\ l !! Z.to_nat i = Some x.
Proof.
  unfold load. destruct (in_bounds l i) eqn:Hb; [|discriminate].
  apply in_bounds_true in Hb. destruct (l !! Z.to_nat i); [|discriminate].
  intros [= ->]. done.
Qed.

Lemma store_ok (l : list X) (i : Z) (x : X) :
  0 <= i < Z.of_nat (length l) -> store l i x = Ok (<[Z.to_nat i := x]> l).
Proof. intros Hi. unfold store. by rewrite (proj2 (in_bounds_true l i) Hi). Qed.

Lemma store_inv (l l' : list X) (i : Z) (x : X) :
  store l i x = Ok l' -> 0 <= i < Z.of_nat (length l) /\ l' = <[Z.to_nat i := x]> l.
Proof.
  unfold store. destruct (in_bounds l i) eqn:Hb; [|discriminate].
  apply in_bounds_true in Hb. by intros [= <-].
Qed.

Lemma store_undefined (l : list X) (i : Z) (x : X) :
  ~ (0 <= i < Z.of_nat (length l)) -> store l i x = Undefined.
Proof. intros Hi. unfold store. by rewrite (proj2 (in_bounds_false l i) Hi). Qed.
End Arrays.

Lemma lane_m_range (t : Z) :
  0 <= t < 64 -> lane_m t = 0 \/ lane_m t = 4 \/ lane_m t = 8 \/ lane_m t = 12.
Proof. unfold lane_m. Z.quot_rem_to_equations. lia. Qed.

Lemma lane_n_range (t : Z) : 0 <= t < 64 -> 0 <= lane_n t < 16.
Proof. unfold lane_n. Z.quot_rem_to_equations. lia. Qed.

Lemma lane_mn_recompose (t : Z) : 4 * t = 16 * lane_m t + 4 * lane_n t.
Proof. unfold lane_m, lane_n. Z.quot_rem_to_equations. lia. Qed.

Lemma a_index_range (t k p : Z) :
  0 <= t < 64 -> 0 <= k < 4 -> 0 <= p < 4 -> 0 <= a_index t k p < 64.
Proof. unfold a_index, lane_m. Z.quot_rem_to_equations. lia. Qed.

Lemma b_index_range (t k : Z) :
  0 <= t < 64 -> 0 <= k < 4 -> 0 <= b_index t k < 64.
Proof. unfold b_index, lane_n. Z.quot_rem_to_equations. lia. Qed.

Lemma seqZ_0_4 : seqZ 0 4 = [0; 1; 2; 3].
Proof. reflexivity. Qed.

Lemma loop_body_ok (t : Z) (at' bt : list float) (k p : Z) (c : floatx4_t) :
  length at' = 64%nat -> length bt = 64%nat ->
  0 <= t < 64 -> 0 <= k < 4 -> 0 <= p < 4 ->
  loop_body t at' bt k p c = vset c p (fadd (vtotal c p) (term at' bt t k p)).
Proof.
  intros Ha Hb Ht Hk Hp. unfold loop_body.
  pose proof (a_index_range t k p Ht Hk Hp) as Hai.
  pose proof (b_index_range t k Ht Hk) as Hbi.
  rewrite (load_ok at') by lia. rewrite (load_ok bt) by lia.
  unfold vtotal, term, tile_at.
  assert (p = 0 \/ p = 1 \/ p = 2 \/ p = 3) as [-> | [-> | [-> | ->]]] by lia;
    reflexivity.
Qed.

Lemma mfma_loops_ok (t : Z) (at' bt : list float) (c : floatx4_t) :
  length at' = 64%nat -> length bt = 64%nat -> 0 <= t < 64 ->
  mfma_loops t at' bt c = Ok (lane_result at' bt t c).
Proof.
  intros Ha Hb Ht. unfold mfma_loops. rewrite seqZ_0_4. cbn [for_each].
  repeat (rewrite loop_body_ok by (done || lia); cbn).
  destruct c; reflexivity.
Qed.

Lemma loop_rest_body (fuel : nat) (t : Z) (at' bt : list float) (k p p' : Z)
    (c : floatx4_t) :
  k < 4 -> p < 4 -> p' = p + 1 ->
  loop_rest (S fuel) t at' bt k p c
  = match loop_body t at' bt k p c with
    | Ok c' => loop_rest fuel t at' bt k p' c'
    | other => Some other
    end.
Proof.
  intros Hk Hp ->. cbn [loop_rest].
  by rewrite (proj2 (Z.ltb_lt k 4) Hk), (proj2 (Z.ltb_lt p 4) Hp).
Qed.

Lemma loop_rest_next_row (fuel : nat) (t : Z) (at' bt : list float) (k k' p : Z)
    (c : floatx4_t) :
  k < 4 -> 4 <= p -> k' = k + 1 ->
  loop_rest (S fuel) t at' bt k p c = loop_rest fuel t at' bt k' 0 c.
Proof.
  intros Hk Hp ->. cbn [loop_rest].
  by rewrite (proj2 (Z.ltb_lt k 4) Hk), (proj2 (Z.ltb_ge p 4) Hp).
Qed.

Lemma loop_rest_exit (fuel : nat) (t : Z) (at' bt : list float) (k p : Z)
    (c : floatx4_t) :
  4 <= k -> loop_rest (S fuel) t at' bt k p c = Some (Ok c).
Proof. intros Hk. cbn [loop_rest]. by rewrite (proj2 (Z.ltb_ge k 4) Hk). Qed.

Ltac body_case t at' bt k p c :=
  destruct (loop_body t at' bt k p c) as [?c| | |];
  cbn [mbind outcome_mbind obind]; [|reflexivity ..].

Lemma loop_rest_row (fuel : nat) (t : Z) (at' bt : list float) (k k' : Z)
    (c : floatx4_t) :
  k < 4 -> k' = k + 1 ->
  loop_rest (5 + fuel) t at' bt k 0 c
  = match for_each (seqZ 0 4) (fun p c2 => loop_body t at' bt k p c2) c with
    | Ok c' => loop_rest fuel t at' bt k' 0 c'
    | other => Some other
    end.
Proof.
  intros Hk Hk'. rewrite seqZ_0_4. cbn [for_each Nat.add].
  rewrite (loop_rest_body _ _ _ _ k 0 1) by lia. body_case t at' bt k 0 c.
  rewrite (loop_rest_body _ _ _ _ k 1 2) by lia. body_case t at' bt k 1 c0.
  rewrite (loop_rest_body _ _ _ _ k 2 3) by lia. body_case t at' bt k 2 c1.
  rewrite (loop_rest_body _ _ _ _ k 3 4) by lia. body_case t at' bt k 3 c2.
  by rewrite (loop_rest_next_row _ _ _ _ k k' 4) by lia.
Qed.

Lemma loop_rest_all (t : Z) (at' bt : list float) (c : floatx4_t) :
  loop_rest 21 t at' bt 0 0 c = Some (mfma_loops t at' bt c).
Proof.
  unfold mfma_loops.
  set (row := fun k c1 => for_each (seqZ 0 4) (fun p c2 => loop_body t at' bt k p c2) c1).
  rewrite seqZ_0_4. cbn [for_each].
  change 21%nat with (5 + (5 + (5 + (5 + 1))))%nat.
  rewrite (loop_rest_row _ t at' bt 0 1) by lia. fold (row 0 c).
  destruct (row 0 c) as [c1| | |]; cbn [mbind outcome_mbind obind]; [|reflexivity ..].
  rewrite (loop_rest_row _ t at' bt 1 2) by lia. fold (row 1 c1).
  destruct (row 1 c1) as [c2| | |]; cbn [mbind outcome_mbind obind]; [|reflexivity ..].
  rewrite (loop_rest_row _ t at' bt 2 3) by lia. fold (row 2 c2).
  destruct (row 2 c2) as [c3| | |]; cbn [mbind outcome_mbind obind]; [|reflexivity ..].
  rewrite (loop_rest_row _ t at' bt 3 4) by lia. fold (row 3 c3).
  destruct (row 3 c3) as [c4| | |]; cbn [mbind outcome_mbind obind]; [|reflexivity ..].
  by rewrite loop_rest_exit by lia.
Qed.

Lemma loop_rest_step (fuel : nat) (t : Z) (at' bt : list float) (k p : Z)
    (c : floatx4_t) (r : outcome floatx4_t) :
  loop_rest (S fuel) t at' bt k p c = Some r ->
  if k <? 4 then
    if p <? 4 then
      match loop_body t at' bt k p c with
      | Ok c' => loop_rest fuel t at' bt k (p + 1) c' = Some r
      | other => r = other
      end
    else loop_rest fuel t at' bt (k + 1) 0 c = Some r
  else r = Ok c.
Proof.
  cbn [loop_rest]. destruct (k <? 4); [destruct (p <? 4)|]; [|done|congruence].
  destruct (loop_body t at' bt k p c); congruence.
Qed.

(** ** Outcomes *)

Lemma bind_Ok_inv {A B : Type} (m : outcome A) (f : A -> outcome B) (y : B) :
  m ≫= f = Ok y -> exists x, m = Ok x /\ f x = Ok y.
Proof. destruct m; cbn; [eauto | discriminate ..]. Qed.

Ltac inv_ok :=
  repeat match goal with
  | H : _ ≫= _ = Ok _ |- _ =>
      let x := fresh "x" in
      let Hx := fresh "Hx" in
      apply bind_Ok_inv in H as (x & Hx & H)
  | H : Ok _ = Ok _ |- _ => injection H as H
  | H : (_, _) = (_, _) |- _ => injection H as ? ?
  end.

(** ** Counting *)

Section Count.
Context {A : Type} (f : A -> bool).

Lemma count_insert (l : list A) (i : nat) (x y : A) :
  l !! i = Some x ->
  (count f (<[i := y]> l) + (if f x then 1 else 0)
   = count f l + (if f y then 1 else 0))%nat.
Proof.
  revert i. induction l as [|z l IH]; intros [|i] Hi; try discriminate.
  - injection Hi as ->. cbn. destruct (f x), (f y); lia.
  - simpl in *. specialize (IH i Hi). revert IH. destruct (f z), (f x), (f y); lia.
Qed.

Lemma count_le_length (l : list A) : (count f l <= length l)%nat.
Proof. induction l as [|z l IH]; cbn; [lia|]. destruct (f z); lia. Qed.

Lemma count_full (l : list A) :
  count f l = length l -> Forall (fun x => f x = true) l.
Proof.
  induction l as [|z l IH]; cbn; intros Hc; [constructor|].
  pose proof (count_le_length l). destruct (f z) eqn:Hz; [|lia].
  constructor; [done|]. apply IH. lia.
Qed.

Lemma count_none (l : list A) :
  Forall (fun x => f x = false) l -> count f l = 0%nat.
Proof. induction 1 as [|z l Hz _ IH]; cbn; [done|]. by rewrite Hz, IH. Qed.

Lemma count_lt_exists (l : list A) :
  (count f l < length l)%nat -> exists i x, l !! i = Some x /\ f x = false.
Proof.
  induction l as [|z l IH]; cbn; [lia|]. intros Hlt.
  destruct (f z) eqn:Hz.
  - destruct IH as (i & x & Hx & Hfx); [lia|]. by exists (S i), x.
  - by exists 0%nat, z.
Qed.

Lemma forallb_false_lookup (l : list A) :
  forallb f l = false -> exists i x, l !! i = Some x /\ f x = false.
Proof.
  induction l as [|z l IH]; cbn; [discriminate|].
  destruct (f z) eqn:Hz; cbn.
  - intros Hl. destruct (IH Hl) as (i & x & Hx & Hfx). by exists (S i), x.
  - intros _. by exists 0%nat, z.
Qed.
End Count.

(** ** Steps *)

Lemma step_inv (i : nat) (s s' : state) :
  step i s = Ok s' ->
  exists l l' sh', lanes s !! i = Some l /\ lane_step l (sh s) = Ok (l', sh') /\
                   s' = State (<[i := l']> (lanes s)) sh'.
Proof.
  unfold step. destruct (lanes s !! i) as [l|]; [|discriminate].
  intros H. inv_ok. destruct x as [l' sh']. subst s'. eauto 6.
Qed.

Lemma run_app (p q : list nat) (s : state) :
  run (p ++ q) s = run p s ≫= run q.
Proof.
  revert s. induction p as [|i p IH]; intros s; cbn; [done|].
  destruct (step i s); cbn; [apply IH | done ..].
Qed.

(** an invariant of the steps holds after every run *)
Lemma run_invariant (P : state -> Prop) :
  (forall i s s', P s -> step i s = Ok s' -> P s') ->
  forall sched s s', P s -> run sched s = Ok s' -> P s'.
Proof.
  intros Hstep. induction sched as [|i sched IH]; intros s s' Hs Hrun; cbn in Hrun.
  - by injection Hrun as <-.
  - inv_ok. eauto.
Qed.

(** ** The barrier invariant *)

Lemma lane_step_barrier (l l' : lane) (s s' : shared_t) :
  lane_step l s = Ok (l', s') ->
  (pc l = BarrierArrive /\ l' = set_pc l (BarrierWait (phase (barrier s))) /\
   s' = set_barrier s (fst (barrier_arrive (barrier s)))) \/
  (exists tok, pc l = BarrierWait tok /\ (tok < phase (barrier s))%nat /\
               l' = set_pc l (Loop 0 0) /\ s' = s) \/
  (barrier s' = barrier s /\
   (forall ph, lane_ok ph l -> lane_ok ph l') /\
   (forall ph, waits_in ph l = false) /\ (forall ph, waits_in ph l' = false)).
Proof.
  unfold lane_step. destruct l as [t q a b c r m]; cbn [pc tid arg_a arg_b arg_c].
  destruct q.
  - intros H; inv_ok; subst. right; right. done.
  - intros H; inv_ok; subst. right; right. done.
  - destruct (assert_tid t); [|discriminate]. intros H; inv_ok; subst.
    right; right. done.
  - intros H; inv_ok; subst. right; right. done.
  - intros H; inv_ok; subst. right; right. done.
  - intros H. left. unfold barrier_arrive in *. destruct (_ =? _); inv_ok; subst; done.
  - intros H. right; left. unfold barrier_released in H.
    destruct (tok <? phase (barrier s))%nat eqn:Hlt; [|discriminate].
    apply Nat.ltb_lt in Hlt. inv_ok. subst. eauto.
  - intros H; inv_ok; subst. right; right. unfold loop_step in Hx. cbn in Hx.
    destruct (k <? 4); [destruct (p <? 4)|]; inv_ok; subst;
      unfold lane_ok, waits_in; cbn; done.
  - intros H; inv_ok; subst.
    right; right. unfold after_call, lane_ok, waits_in; cbn.
    destruct m; cbn; split_and!; try done; intros ph <-; done.
  - discriminate.
Qed.

Lemma Forall_lane_ok_next (ph : nat) (ls : list lane) :
  Forall (lane_ok ph) ls -> Forall (fun l => waits_in ph l = true) ls ->
  Forall (lane_ok (S ph)) ls /\ Forall (fun l => waits_in (S ph) l = false) ls.
Proof.
  rewrite !Forall_forall. intros Hok Hw. split; intros l Hl.
  - specialize (Hok l Hl). specialize (Hw l Hl). unfold lane_ok, waits_in in *.
    destruct (pc l); try discriminate. apply Nat.eqb_eq in Hw. lia.
  - specialize (Hw l Hl). unfold waits_in in *.
    destruct (pc l); try done. apply Nat.eqb_eq in Hw. apply Nat.eqb_neq. lia.
Qed.

Lemma barrier_inv_step (i : nat) (s s' : state) :
  barrier_inv s -> step i s = Ok s' -> barrier_inv s'.
Proof.
  intros (Hlen & Hexp & Hok & Hpend & Hpos) Hstep.
  apply step_inv in Hstep as (l & l' & sh' & Hl & Hls & ->).
  pose proof (lookup_lt_Some _ _ _ Hl) as Hi.
  pose proof (proj1 (Forall_lookup _ _) Hok i l Hl) as Hokl.
  pose proof (count_insert (waits_in (phase (barrier (sh s)))) _ i l l' Hl) as Hcnt.
  unfold barrier_inv. cbn [lanes sh]. rewrite length_insert.
  apply lane_step_barrier in Hls
    as [(Hpc & -> & ->) | [(tok & Hpc & Hlt & -> & ->) | (Hb & Hkeep & Hw & Hw')]].
  - (* arrival *)
    unfold lane_ok in Hokl. rewrite Hpc in Hokl.
    assert (waits_in (phase (barrier (sh s))) l = false) as Hwl
      by (unfold waits_in; by rewrite Hpc).
    assert (waits_in (phase (barrier (sh s)))
              (set_pc l (BarrierWait (phase (barrier (sh s))))) = true) as Hwl'
      by (unfold waits_in; cbn; apply Nat.eqb_refl).
    rewrite Hwl, Hwl' in Hcnt.
    assert (Forall (lane_ok (phase (barrier (sh s))))
              (<[i := set_pc l (BarrierWait (phase (barrier (sh s))))]> (lanes s))) as Hok'.
    { apply Forall_insert; [done|]. unfold lane_ok. cbn. lia. }
    unfold barrier_arrive. destruct (pending (barrier (sh s)) - 1 =? 0) eqn:Hlast.
    + apply Z.eqb_eq in Hlast. cbn.
      destruct (Forall_lane_ok_next _ _ Hok') as [Hnext Hnone].
      { apply count_full. rewrite length_insert. lia. }
      rewrite (count_none _ _ Hnone). split_and!; try done; lia.
    + apply Z.eqb_neq in Hlast. cbn. split_and!; try done; lia.
  - (* release *)
    unfold lane_ok in Hokl. rewrite Hpc in Hokl.
    assert (waits_in (phase (barrier (sh s))) l = false) as Hwl.
    { unfold waits_in. rewrite Hpc. apply Nat.eqb_neq. lia. }
    assert (waits_in (phase (barrier (sh s))) (set_pc l (Loop 0 0)) = false) as Hwl'
      by done.
    rewrite Hwl, Hwl' in Hcnt. split_and!; try done; [|lia].
    apply Forall_insert; [done|]. unfold lane_ok. cbn. lia.
  - (* any other statement *)
    rewrite Hb. rewrite Hw, Hw' in Hcnt. split_and!; try done; [|lia].
    apply Forall_insert; [done|]. by apply Hkeep.
Qed.

Lemma barrier_inv_launch (n : nat) (a b : list float) (c : list floatx4_t) :
  barrier_inv (launch_calls n a b c).
Proof.
  unfold barrier_inv, launch_calls. cbn [lanes sh barrier barrier_init expected phase pending].
  split_and!; try done.
  apply Forall_fmap, Forall_forall. intros i _. done.
Qed.

Lemma barrier_inv_run (n : nat) (a b : list float) (c : list floatx4_t)
    (sched : list nat) (s : state) :
  run sched (launch_calls n a b c) = Ok s -> barrier_inv s.
Proof.
  apply (run_invariant barrier_inv).
  - intros i s0 s1. apply barrier_inv_step.
  - apply barrier_inv_launch.
Qed.

(** ** Every step is one of finitely many *)

Lemma total_insert {A : Type} (f : A -> nat) (l : list A) (i : nat) (x y : A) :
  l !! i = Some x -> (total f (<[i := y]> l) + f x = total f l + f y)%nat.
Proof.
  revert i. induction l as [|z l IH]; intros [|i] Hi; try discriminate.
  - injection Hi as ->. simpl. lia.
  - simpl in *. specialize (IH i Hi). lia.
Qed.

Lemma total_zero {A : Type} (f : A -> nat) (l : list A) (x : A) :
  total f l = 0%nat -> x ∈ l -> f x = 0%nat.
Proof.
  induction l as [|z l IH]; cbn; intros Hsum Hx; [by apply not_elem_of_nil in Hx|].
  apply elem_of_cons in Hx as [-> | Hx]; [lia | apply IH; [lia | done]].
Qed.

Lemma total_all_zero {A : Type} (f : A -> nat) (l : list A) :
  (forall x, x ∈ l -> f x = 0%nat) -> total f l = 0%nat.
Proof.
  induction l as [|z l IH]; intros Hzero; cbn [total]; [done|].
  rewrite Hzero by left. apply IH. intros x Hx. apply Hzero. by right.
Qed.

Lemma loop_steps_body (k p : Z) :
  k < 4 -> p < 4 -> loop_steps_left k p = S (loop_steps_left k (p + 1)).
Proof.
  intros Hk Hp. unfold loop_steps_left. rewrite (proj2 (Z.ltb_lt k 4) Hk). lia.
Qed.

Lemma loop_steps_next_row (k p : Z) :
  k < 4 -> 4 <= p -> loop_steps_left k p = S (loop_steps_left (k + 1) 0).
Proof.
  intros Hk Hp. unfold loop_steps_left. rewrite (proj2 (Z.ltb_lt k 4) Hk).
  destruct (k + 1 <? 4) eqn:Hk'; [apply Z.ltb_lt in Hk' | apply Z.ltb_ge in Hk']; lia.
Qed.

Lemma loop_steps_exit (k p : Z) : 4 <= k -> loop_steps_left k p = 1%nat.
Proof. intros Hk. unfold loop_steps_left. by rewrite (proj2 (Z.ltb_ge k 4) Hk). Qed.

(** a step takes one off what its worker has left to do *)
Lemma lane_step_steps_left (l l' : lane) (s s' : shared_t) :
  lane_step l s = Ok (l', s') -> steps_left l = S (steps_left l').
Proof.
  unfold lane_step, steps_left. destruct l as [t q xa xb xc r m].
  cbn [pc tid arg_a arg_b arg_c round more_calls]. destruct q.
  - intros H; inv_ok; subst; cbn; lia.
  - intros H; inv_ok; subst; cbn; lia.
  - destruct (assert_tid _); [|discriminate]. intros H; inv_ok; subst; cbn; lia.
  - intros H; inv_ok; subst; cbn; lia.
  - intros H; inv_ok; subst; cbn; lia.
  - destruct (barrier_arrive _). intros H; inv_ok; subst; cbn; lia.
  - destruct (barrier_released _ _); [|discriminate]. intros H; inv_ok; subst; cbn; lia.
  - intros H; inv_ok; subst. unfold loop_step in Hx.
    destruct (k <? 4) eqn:Hk; [destruct (p <? 4) eqn:Hp|]; inv_ok; subst;
      cbn [pc more_calls set_pc];
      rewrite ?Z.ltb_lt, ?Z.ltb_ge in *.
    + rewrite (loop_steps_body k p) by done. lia.
    + rewrite (loop_steps_next_row k p) by done. lia.
    + rewrite (loop_steps_exit k p) by done. lia.
  - intros H; inv_ok; subst. unfold after_call. destruct m; cbn; lia.
  - discriminate.
Qed.

Lemma step_steps_left (i : nat) (s s' : state) :
  step i s = Ok s' -> total steps_left (lanes s) = S (total steps_left (lanes s')).
Proof.
  intros Hstep. apply step_inv in Hstep as (l & l' & sh' & Hl & Hls & ->). cbn [lanes].
  pose proof (total_insert steps_left _ i l l' Hl).
  apply lane_step_steps_left in Hls. lia.
Qed.

(** a run has as many steps as its workers have lost *)
Lemma run_steps_left (sched : list nat) (s s' : state) :
  run sched s = Ok s' ->
  total steps_left (lanes s) = (length sched + total steps_left (lanes s'))%nat.
Proof.
  revert s. induction sched as [|i sched IH]; intros s Hrun; cbn in Hrun.
  - by injection Hrun as <-.
  - inv_ok. apply step_steps_left in Hx. apply IH in Hrun. cbn. lia.
Qed.

(** ** What one step leaves alone *)

Lemma lane_step_frame (l l' : lane) (s s' : shared_t) :
  lane_step l s = Ok (l', s') ->
  mem_a s' = mem_a s /\ mem_b s' = mem_b s /\
  length (a_tile (tiles s')) = length (a_tile (tiles s)) /\
  length (b_tile (tiles s')) = length (b_tile (tiles s)) /\
  length (mem_c s') = length (mem_c s) /\
  forall j : nat, Z.of_nat j <> tid l' ->
    a_tile (tiles s') !! j = a_tile (tiles s) !! j /\
    b_tile (tiles s') !! j = b_tile (tiles s) !! j /\
    mem_c s' !! j = mem_c s !! j.
Proof.
  unfold lane_step. destruct (pc l) eqn:Hpc.
  - intros H; inv_ok; subst. done.
  - intros H; inv_ok; subst. done.
  - destruct (assert_tid (tid l)); [|discriminate]. intros H; inv_ok; subst. done.
  - intros H; inv_ok; subst. apply store_inv in Hx as [Hb ->]. cbn.
    rewrite length_insert. split_and!; try done.
    intros j Hj. split_and!; try done. apply list_lookup_insert_ne. lia.
  - intros H; inv_ok; subst. apply store_inv in Hx as [Hb ->]. cbn.
    rewrite length_insert. split_and!; try done.
    intros j Hj. split_and!; try done. apply list_lookup_insert_ne. lia.
  - destruct (barrier_arrive (barrier s)). intros H; inv_ok; subst. done.
  - destruct (barrier_released (barrier s) tok); [|discriminate].
    intros H; inv_ok; subst. done.
  - intros H; inv_ok; subst. done.
  - intros H; inv_ok; subst. apply store_inv in Hx as [Hb ->]. cbn.
    rewrite length_insert. split_and!; try done.
    intros j Hj. split_and!; try done. apply list_lookup_insert_ne.
    unfold after_call in Hj. destruct (more_calls l); cbn in Hj; lia.
  - discriminate.
Qed.

(** ** The invariant of one launch *)

Section Launch.
Variables (a b : list float) (c0 : list floatx4_t).
Hypothesis Ha : length a = 64%nat.
Hypothesis Hb : length b = 64%nat.
Hypothesis Hc : length c0 = 64%nat.

Lemma lane_inv_step (i : nat) (l l' : lane) (s s' : shared_t) :
  (i < 64)%nat ->
  mem_a s = a -> mem_b s = b ->
  length (a_tile (tiles s)) = 64%nat -> length (b_tile (tiles s)) = 64%nat ->
  length (mem_c s) = 64%nat ->
  (reads_tiles (pc l) = true -> tiles s = Tiles a b) ->
  lane_inv a b c0 (a_tile (tiles s) !! i) (b_tile (tiles s) !! i) (mem_c s !! i) i l ->
  lane_step l s = Ok (l', s') ->
  lane_inv a b c0 (a_tile (tiles s') !! i) (b_tile (tiles s') !! i) (mem_c s' !! i) i l'.
Proof.
  intros Hi Hma Hmb Hla Hlb Hlc Htiles [Hmore Hinv].
  unfold lane_step. unfold lane_inv. destruct l as [t q xa xb xc r m].
  cbn [pc tid arg_a arg_b arg_c round more_calls] in *. subst m.
  destruct q.
  - intros H; inv_ok; subst. cbn. tauto.
  - destruct Hinv as (-> & -> & Hmc). intros H; inv_ok; subst. cbn.
    apply load_inv in Hx as [_ Hx]. apply load_inv in Hx0 as [_ Hx0].
    apply load_inv in Hx1 as [_ Hx1]. rewrite Nat2Z.id in *.
    unfold args_ok. cbn. split_and!; try done. congruence.
  - destruct (assert_tid t); [|discriminate]. intros H; inv_ok; subst. cbn. tauto.
  - destruct Hinv as (-> & -> & Hmc & Hargs). intros H; inv_ok; subst. cbn.
    apply store_inv in Hx as [_ ->]. rewrite Nat2Z.id.
    rewrite list_lookup_insert_eq by lia. unfold args_ok in *. cbn in *.
    split_and!; try tauto. symmetry; tauto.
  - destruct Hinv as (-> & -> & Hmc & Hargs & Hta). intros H; inv_ok; subst. cbn.
    apply store_inv in Hx as [_ ->]. rewrite Nat2Z.id.
    rewrite list_lookup_insert_eq by lia. unfold args_ok in *. cbn in *.
    split_and!; try tauto. symmetry; tauto.
  - destruct (barrier_arrive (barrier s)). intros H; inv_ok; subst. cbn. tauto.
  - destruct (barrier_released (barrier s) tok); [|discriminate].
    intros H; inv_ok; subst. cbn.
    destruct Hinv as (-> & -> & Hmc & (Hxa & Hxb & Hxc) & Hta & Htb). cbn in *.
    split_and!; try done. exists 21%nat, xc. split; [done|].
    rewrite loop_rest_all, mfma_loops_ok; [done | done | done | lia].
  - destruct Hinv as (-> & -> & Hmc & Hta & Htb & fuel & c & Hc0 & Hrest).
    rewrite (Htiles eq_refl). cbn [a_tile b_tile].
    intros H; inv_ok; subst. unfold loop_step in Hx. cbn [tid arg_a arg_b arg_c round more_calls] in Hx.
    destruct fuel as [|fuel]; [discriminate|].
    apply loop_rest_step in Hrest.
    destruct (k <? 4); [destruct (p <? 4)|].
    + inv_ok. subst. cbn [a_tile b_tile] in Hx0. rewrite Hx0 in Hrest. cbn. split_and!; try done. eauto.
    + inv_ok. subst. cbn. split_and!; try done. eauto.
    + inv_ok. subst. cbn. split_and!; try done. eauto.
  - destruct Hinv as (-> & -> & Hmc & Hta & Htb & c & Hc0 & Hres).
    intros H; inv_ok; subst. cbn in *.
    apply store_inv in Hx as [_ ->]. rewrite Nat2Z.id.
    rewrite list_lookup_insert_eq by lia. split_and!; try done. eauto.
  - discriminate.
Qed.

Lemma lane_inv_tid (ta tb : option float) (mc : option floatx4_t) (i : nat) (l : lane) :
  lane_inv a b c0 ta tb mc i l -> (forall t, pc l <> ThreadEntry t) -> tid l = Z.of_nat i.
Proof.
  intros [_ H] Hpc. destruct (pc l); try tauto. by destruct (Hpc tid_arg).
Qed.

Lemma lane_step_not_entry (l l' : lane) (s s' : shared_t) (t : Z) :
  lane_step l s = Ok (l', s') -> pc l' <> ThreadEntry t.
Proof.
  unfold lane_step. destruct l as [t0 q xa xb xc r m]. cbn [pc].
  destruct q; intros H; inv_ok; subst; try done.
  - by destruct (assert_tid _); inv_ok; subst.
  - by destruct (barrier_arrive _); inv_ok; subst.
  - by destruct (barrier_released _ _); inv_ok; subst.
  - unfold loop_step in Hx. destruct (k <? 4); [destruct (p <? 4)|]; by inv_ok; subst.
  - unfold after_call. by destruct m.
Qed.

(** once a worker is past the barrier, the tiles hold the arrays [a]
    and [b] *)
Lemma tiles_published (s : state) (i : nat) (l : lane) :
  barrier_inv s -> data_inv a b c0 s ->
  lanes s !! i = Some l -> passed_barrier (pc l) = true ->
  tiles (sh s) = Tiles a b.
Proof.
  intros (Hlen & _ & Hok & _) (_ & _ & Hla & Hlb & _ & Hlanes) Hl Hpassed.
  assert (phase (barrier (sh s)) = 1%nat) as Hph.
  { pose proof (proj1 (Forall_lookup _ _) Hok i l Hl) as Hokl.
    destruct (Hlanes i l Hl) as [_ Hinv]. unfold lane_ok in Hokl.
    destruct (pc l); try discriminate; lia. }
  rewrite Hph in Hok.
  assert (forall j, a_tile (tiles (sh s)) !! j = a !! j /\
                    b_tile (tiles (sh s)) !! j = b !! j) as Hslots.
  { intros j. destruct (decide (j < 64)%nat) as [Hj|Hj].
    - destruct (lookup_lt_is_Some_2 (lanes s) j) as [lj Hlj]; [lia|].
      pose proof (proj1 (Forall_lookup _ _) Hok j lj Hlj) as Hokj.
      destruct (Hlanes j lj Hlj) as [_ Hinv]. unfold lane_ok in Hokj.
      destruct (pc lj); try lia; tauto.
    - rewrite !lookup_ge_None_2 by lia. done. }
  destruct (tiles (sh s)) as [ta tb]. cbn in *.
  f_equal; apply list_eq; intros j; apply Hslots.
Qed.

Lemma data_inv_step (i : nat) (s s' : state) :
  barrier_inv s -> data_inv a b c0 s -> step i s = Ok s' -> data_inv a b c0 s'.
Proof.
  intros Hbar Hdata Hstep.
  pose proof Hdata as (Hma & Hmb & Hla & Hlb & Hlc & Hlanes).
  apply step_inv in Hstep as (l & l' & sh' & Hl & Hls & ->).
  pose proof (lookup_lt_Some _ _ _ Hl) as Hi.
  destruct Hbar as (Hlen & Hbar). rewrite Hlen in Hi.
  pose proof (lane_step_frame _ _ _ _ Hls) as (Hfa & Hfb & Hfla & Hflb & Hflc & Hframe).
  assert (lane_inv a b c0 (a_tile (tiles sh') !! i) (b_tile (tiles sh') !! i)
                   (mem_c sh' !! i) i l') as Hinv'.
  { eapply lane_inv_step; eauto.
    intros Hreads. eapply (tiles_published s i l); eauto.
    - by split.
    - by destruct (pc l). }
  unfold data_inv. cbn [sh lanes]. split_and!; try congruence.
  intros j lj Hlj. destruct (decide (j = i)) as [->|Hne].
  - rewrite list_lookup_insert_eq in Hlj by lia. by injection Hlj as <-.
  - rewrite list_lookup_insert_ne in Hlj by done.
    destruct (Hframe j) as (-> & -> & ->); [|by apply Hlanes].
    rewrite (lane_inv_tid _ _ _ _ _ Hinv'); [lia|].
    intros t. eapply lane_step_not_entry; eauto.
Qed.

Lemma data_inv_launch : data_inv a b c0 (launch a b c0).
Proof.
  unfold data_inv, launch, launch_calls. cbn [sh lanes mem_a mem_b mem_c tiles].
  split_and!; try done.
  intros i l Hl. apply list_lookup_fmap_Some in Hl as (t & -> & Ht).
  apply lookup_seqZ in Ht as [-> Hlt]. unfold spawn, lane_inv. cbn.
  split_and!; try done; lia.
Qed.

Lemma inv_run (sched : list nat) (s : state) :
  run sched (launch a b c0) = Ok s -> barrier_inv s /\ data_inv a b c0 s.
Proof.
  apply (run_invariant (fun s => barrier_inv s /\ data_inv a b c0 s)).
  - intros i s0 s1 [H1 H2] Hstep. split.
    + eapply barrier_inv_step; eauto.
    + eapply data_inv_step; eauto.
  - split; [apply barrier_inv_launch | apply data_inv_launch].
Qed.
(** ** Safety of every step of the launch *)

Lemma step_safe (i : nat) (s : state) :
  barrier_inv s -> data_inv a b c0 s ->
  (exists s', step i s = Ok s') \/
  (step i s = Blocked /\
   forall l, lanes s !! i = Some l ->
     pc l = Finished \/
     exists tok, pc l = BarrierWait tok /\
                 barrier_released (barrier (sh s)) tok = false).
Proof.
  intros Hbar Hdata. unfold step.
  destruct (lanes s !! i) as [l|] eqn:Hl; [|by right].
  pose proof (lookup_lt_Some _ _ _ Hl) as Hi.
  pose proof Hbar as (Hlen & _). rewrite Hlen in Hi.
  pose proof Hdata as (Hma & Hmb & Hla & Hlb & Hlc & Hlanes).
  pose proof (Hlanes i l Hl) as [Hmore Hinv].
  unfold lane_step. destruct (pc l) eqn:Hpc.
  - left. cbn. eauto.
  - destruct Hinv as (Ht & _). rewrite Ht.
    rewrite Hma, Hmb. rewrite (load_ok a), (load_ok b), (load_ok (mem_c (sh s))) by lia.
    left. cbn. eauto.
  - destruct Hinv as (Ht & _). unfold assert_tid, threads_per_subgroup.
    rewrite Ht. rewrite (proj2 (Z.ltb_lt _ _)) by lia. left. cbn. eauto.
  - destruct Hinv as (Ht & _). rewrite Ht, store_ok by lia. left. cbn. eauto.
  - destruct Hinv as (Ht & _). rewrite Ht, store_ok by lia. left. cbn. eauto.
  - destruct (barrier_arrive (barrier (sh s))). left. cbn. eauto.
  - destruct (barrier_released (barrier (sh s)) tok) eqn:Hrel; [left | right]; cbn; eauto.
    split; [done|]. intros l0 [= <-]. right. rewrite Hpc. eauto.
  - destruct Hinv as (Ht & _ & _ & _ & _ & fuel & c & _ & Hrest).
    rewrite (tiles_published s i l) by (rewrite ?Hpc; done).
    destruct fuel as [|fuel]; [discriminate|].
    apply loop_rest_step in Hrest. unfold loop_step. rewrite Ht. cbn [a_tile b_tile].
    destruct (k <? 4); [destruct (p <? 4)|]; try (left; cbn; eauto; fail).
    destruct (loop_body _ _ _ _ _ _); try discriminate. left. cbn. eauto.
  - destruct Hinv as (Ht & _). rewrite Ht, store_ok by lia. left. cbn. eauto.
  - right. split; [done|]. intros l0 [= <-]. by left.
Qed.

(** no schedule makes the launch fail an assertion or leave an array *)
Lemma run_safe (sched : list nat) :
  run sched (launch a b c0) = Blocked \/ exists s, run sched (launch a b c0) = Ok s.
Proof.
  assert (forall s, barrier_inv s -> data_inv a b c0 s ->
            run sched s = Blocked \/ exists s', run sched s = Ok s') as Hgen.
  { induction sched as [|i sched IH]; intros s Hbar Hdata; cbn; [eauto|].
    destruct (step_safe i s Hbar Hdata) as [[s' Hs'] | [-> _]]; [|by left].
    rewrite Hs'. cbn. apply IH.
    - eapply barrier_inv_step; eauto.
    - eapply data_inv_step; eauto. }
  apply Hgen; [apply barrier_inv_launch | by apply data_inv_launch].
Qed.

(** the launch cannot deadlock: as long as some worker has not returned,
    some worker can move *)
Lemma launch_progress (sched : list nat) (s : state) :
  run sched (launch a b c0) = Ok s -> complete s = false ->
  exists i s', step i s = Ok s'.
Proof.
  intros Hrun Hincomplete.
  destruct (inv_run sched s Hrun) as [Hbar Hdata].
  pose proof Hbar as (Hlen & _ & Hok & Hpend & Hpos).
  pose proof Hdata as (_ & _ & _ & _ & _ & Hlanes).
  assert (forall i l, lanes s !! i = Some l ->
            pc l <> Finished -> (forall tok, pc l <> BarrierWait tok) ->
            exists i s', step i s = Ok s') as Hmove.
  { intros i l Hl Hnf Hnw.
    destruct (step_safe i s Hbar Hdata) as [[s' Hs'] | [_ Hblocked]]; [eauto|].
    destruct (Hblocked l Hl) as [Hf | (tok & Hw & _)]; [done | by destruct (Hnw tok)]. }
  destruct (phase (barrier (sh s))) as [|ph] eqn:Hph.
  - (* nobody has been released: some worker has yet to arrive *)
    destruct (count_lt_exists (waits_in 0) (lanes s)) as (i & l & Hl & Hnot); [lia|].
    pose proof (proj1 (Forall_lookup _ _) Hok i l Hl) as Hokl.
    destruct (Hlanes i l Hl) as [_ Hinv]. unfold lane_ok in Hokl. unfold waits_in in Hnot.
    apply (Hmove i l Hl).
    + intros Hpc. rewrite Hpc in *. lia.
    + intros tok Hpc. rewrite Hpc in *. apply Nat.eqb_neq in Hnot. lia.
  - (* the phase has ended: a worker that has not returned can move *)
    unfold complete in Hincomplete.
    apply forallb_false_lookup in Hincomplete as (i & l & Hl & Hnf).
    pose proof (proj1 (Forall_lookup _ _) Hok i l Hl) as Hokl.
    destruct (Hlanes i l Hl) as [_ Hinv]. unfold lane_ok in Hokl. unfold is_finished in Hnf.
    destruct (step_safe i s Hbar Hdata) as [[s' Hs'] | [_ Hblocked]]; [eauto|].
    destruct (Hblocked l Hl) as [Hf | (tok & Hw & Hrel)].
    + by rewrite Hf in Hnf.
    + rewrite Hw in *. unfold barrier_released in Hrel. apply Nat.ltb_ge in Hrel. lia.
Qed.

Lemma total_launch : total steps_left (lanes (launch a b c0)) = 1856%nat.
Proof. reflexivity. Qed.

Lemma complete_total (s : state) :
  data_inv a b c0 s -> complete s = true -> total steps_left (lanes s) = 0%nat.
Proof.
  intros (_ & _ & _ & _ & _ & Hlanes) Hdone.
  unfold complete in Hdone. rewrite forallb_forall in Hdone.
  assert (forall l, l ∈ lanes s -> steps_left l = 0%nat) as Hzero.
  { intros l Hl. pose proof Hl as Hin. apply list_elem_of_In, Hdone in Hin.
    apply list_elem_of_lookup in Hl as [j Hj].
    destruct (Hlanes j l Hj) as [Hmore _].
    unfold steps_left, is_finished in *. rewrite Hmore. by destruct (pc l). }
  by apply total_all_zero.
Qed.

(** every run of the launch is the beginning of a complete run, and a
    complete run has 64 * 29 steps *)
Lemma launch_terminates (sched : list nat) (s : state) :
  run sched (launch a b c0) = Ok s ->
  exists rest s', run (sched ++ rest) (launch a b c0) = Ok s' /\
                  complete s' = true /\ length (sched ++ rest) = 1856%nat.
Proof.
  remember (total steps_left (lanes s)) as n eqn:Hn.
  revert sched s Hn. induction n as [|n IH]; intros sched s Hn Hrun;
    destruct (complete s) eqn:Hdone.
  - exists [], s. rewrite app_nil_r. split_and!; try done.
    pose proof (run_steps_left _ _ _ Hrun) as Hlen. rewrite total_launch in Hlen. lia.
  - destruct (launch_progress sched s Hrun Hdone) as (i & s1 & Hstep).
    apply step_steps_left in Hstep. lia.
  - exists [], s. rewrite app_nil_r. split_and!; try done.
    destruct (inv_run sched s Hrun) as [_ Hdata].
    pose proof (complete_total s Hdata Hdone). lia.
  - destruct (launch_progress sched s Hrun Hdone) as (i & s1 & Hstep).
    assert (run (sched ++ [i]) (launch a b c0) = Ok s1) as Hrun1.
    { rewrite run_app, Hrun. cbn. by rewrite Hstep. }
    destruct (IH (sched ++ [i]) s1) as (rest & s' & Hrun' & Hdone' & Hlen'); [|done|].
    { apply step_steps_left in Hstep. lia. }
    exists (i :: rest), s'. rewrite <- app_assoc in Hrun', Hlen'. done.
Qed.

(** ** The result of a complete run *)

Lemma complete_result (sched : list nat) (s : state) :
  run sched (launch a b c0) = Ok s -> complete s = true ->
  mem_a (sh s) = a /\ mem_b (sh s) = b /\ tiles (sh s) = Tiles a b /\
  mem_c (sh s) = mfma_all a b c0.
Proof.
  intros Hrun Hcomplete.
  destruct (inv_run sched s Hrun) as [Hbar Hdata].
  pose proof Hbar as (Hlen & _).
  pose proof Hdata as (Hma & Hmb & Hla & Hlb & Hlc & Hlanes).
  assert (forall i l, lanes s !! i = Some l -> pc l = Finished) as Hfin.
  { intros i l Hl. unfold complete in Hcomplete.
    rewrite forallb_forall in Hcomplete.
    specialize (Hcomplete l). unfold is_finished in Hcomplete.
    destruct (pc l); try done; exfalso;
      by discriminate Hcomplete; apply list_elem_of_In; eapply list_elem_of_lookup_2. }
  split_and!; try done.
  - destruct (lookup_lt_is_Some_2 (lanes s) 0) as [l Hl]; [lia|].
    apply (tiles_published s 0%nat l); try done.
    by rewrite (Hfin _ _ Hl).
  - apply list_eq. intros i. unfold mfma_all. rewrite list_lookup_imap.
    destruct (decide (i < 64)%nat) as [Hi|Hi].
    + destruct (lookup_lt_is_Some_2 (lanes s) i) as [l Hl]; [lia|].
      destruct (Hlanes i l Hl) as [_ Hinv]. rewrite (Hfin _ _ Hl) in Hinv.
      destruct Hinv as (_ & _ & _ & _ & c & Hci & ->). by rewrite Hci.
    + rewrite !lookup_ge_None_2 by lia. done.
Qed.
End Launch.

(** ** Runs on arrays of any content *)

Ltac explode l H :=
  repeat (destruct l as [|? l]; [discriminate H|]);
  destruct l; [clear H|discriminate H].

Lemma init_test_matrices_any (a0 b0 : list float) (c0 : list floatx4_t) :
  length a0 = 64%nat -> length b0 = 64%nat -> length c0 = 64%nat ->
  init_test_matrices a0 b0 c0 = Ok (test_a, test_b, test_c).
Proof.
  intros Ha Hb Hc. explode a0 Ha. explode b0 Hb. explode c0 Hc.
  vm_compute. reflexivity.
Qed.

Lemma launch_completes (a b : list float) (c : list floatx4_t) :
  length a = 64%nat -> length b = 64%nat -> length c = 64%nat ->
  exists s, run (round_robin 29) (launch a b c) = Ok s /\ complete s = true.
Proof.
  intros Ha Hb Hc.
  assert (completes (round_robin 29) (launch a b c) = true) as H.
  { explode a Ha. explode b Hb. explode c Hc. vm_compute. reflexivity. }
  unfold completes in H. destruct (run _ _) as [s| | |]; try discriminate. eauto.
Qed.

(** ** The lane function, sequentially *)

Lemma publish_all (t : Z) (A B : list float) (T : tiles_t) :
  0 <= t < 64 ->
  length A = 64%nat -> length B = 64%nat ->
  length (a_tile T) = 64%nat -> length (b_tile T) = 64%nat ->
  (forall j : nat, Z.of_nat j <> t ->
     a_tile T !! j = A !! j /\ b_tile T !! j = B !! j) ->
  publish t (tile_at A t) (tile_at B t) T = Ok (Tiles A B).
Proof.
  intros Ht HA HB Hla Hlb Hothers. unfold publish.
  rewrite (store_ok (a_tile T)), (store_ok (b_tile T)) by lia. cbn.
  do 2 f_equal; apply list_eq; intros j.
  - destruct (decide (j = Z.to_nat t)) as [->|Hj].
    + rewrite list_lookup_insert_eq by lia. unfold tile_at.
      symmetry. apply list_lookup_lookup_total_lt. lia.
    + rewrite list_lookup_insert_ne by done. apply Hothers. lia.
  - destruct (decide (j = Z.to_nat t)) as [->|Hj].
    + rewrite list_lookup_insert_eq by lia. unfold tile_at.
      symmetry. apply list_lookup_lookup_total_lt. lia.
    + rewrite list_lookup_insert_ne by done. apply Hothers. lia.
Qed.

Lemma vget_lane_result (A B : list float) (t p : Z) (c : floatx4_t) :
  0 <= p < 4 ->
  vget (lane_result A B t c) p
  = Ok (fold_left (fun acc k => fadd acc (fmul (tile_at A (16 * k + 4 * (Z.quot t 16) + p))
                                                (tile_at B (16 * k + Z.rem t 16))))
                  (seqZ 0 4) (vtotal c p)).
Proof.
  intros Hp. rewrite seqZ_0_4.
  assert (p = 0 \/ p = 1 \/ p = 2 \/ p = 3) as [-> | [-> | [-> | ->]]] by lia;
    reflexivity.
Qed.

(** the kernel, for the last lane to reach the barrier *)
Lemma matmul_kernel_last_lane (t : Z) (a b : list float) (c : list floatx4_t)
    (T : tiles_t) :
  0 <= t < 64 ->
  length a = 64%nat -> length b = 64%nat -> length c = 64%nat ->
  length (a_tile T) = 64%nat -> length (b_tile T) = 64%nat ->
  (forall j : nat, Z.of_nat j <> t ->
     a_tile T !! j = a !! j /\ b_tile T !! j = b !! j) ->
  matmul_kernel_f32_16x16x4f32 t a b c T
  = Ok (<[Z.to_nat t := lane_result a b t (c !!! Z.to_nat t)]> c, Tiles a b).
Proof.
  intros Ht Ha Hb Hc Hla Hlb Hothers. unfold matmul_kernel_f32_16x16x4f32.
  rewrite (load_ok a), (load_ok b), (load_ok c) by lia.
  cbn [mbind outcome_mbind obind].
  unfold cpu_mfma_f32_16x16x4f32, assert_tid, threads_per_subgroup.
  rewrite (proj2 (Z.ltb_lt _ _)) by lia.
  fold (tile_at a t). fold (tile_at b t). rewrite publish_all by done.
  cbn [mbind outcome_mbind obind a_tile b_tile].
  rewrite mfma_loops_ok by done. cbn [mbind outcome_mbind obind fst snd].
  by rewrite store_ok by lia.
Qed.

(** C1.  For a lane id t in [0, 64), when the other lanes' operands are
    already in the tiles, [cpu_mfma_f32_16x16x4f32] called with lane t's
    own operands returns a fragment whose component p, for p in 0..3, is
    c[p] with the four products A_tile[16*k + m + p] * B_tile[16*k + n],
    k = 0, 1, 2, 3, added onto it in that order, where m = 4 * (t / 16)
    and n = t % 16; the fragment has no other component, and the tiles
    hold every lane's operands afterwards. *)
Theorem C1_compute_result (t : Z) (A B : list float) (T : tiles_t) (c : floatx4_t) :
  0 <= t < 64 ->
  length A = 64%nat -> length B = 64%nat ->
  length (a_tile T) = 64%nat -> length (b_tile T) = 64%nat ->
  (forall j : nat, Z.of_nat j <> t ->
     a_tile T !! j = A !! j /\ b_tile T !! j = B !! j) ->
  exists c',
    cpu_mfma_f32_16x16x4f32 t (tile_at A t) (tile_at B t) c T = Ok (c', Tiles A B) /\
    (forall p, 0 <= p < 4 ->
       vget c' p
       = Ok (fold_left
               (fun acc k => fadd acc (fmul (tile_at A (16 * k + 4 * (Z.quot t 16) + p))
                                            (tile_at B (16 * k + Z.rem t 16))))
               (seqZ 0 4) (vtotal c p))) /\
    (forall p, ~ 0 <= p < 4 -> vget c' p = Undefined).
Proof.
  intros Ht HA HB Hla Hlb Hothers. exists (lane_result A B t c). split_and!.
  - unfold cpu_mfma_f32_16x16x4f32, assert_tid, threads_per_subgroup.
    rewrite (proj2 (Z.ltb_lt _ _)) by lia.
    rewrite publish_all by done. cbn [mbind outcome_mbind obind a_tile b_tile].
    by rewrite mfma_loops_ok.
  - intros p Hp. by apply vget_lane_result.
  - intros p Hp. unfold vget.
    destruct p as [|q|q]; [lia| |done].
    destruct q as [[q|q|]|[q|q|]|]; try done; lia.
Qed.

Lemma C1_compute_result_witness :
  exists c',
    cpu_mfma_f32_16x16x4f32 5 (tile_at test_a 5) (tile_at test_b 5) vzero
      (Tiles (<[5%nat := fzero]> test_a) (<[5%nat := fzero]> test_b))
    = Ok (c', Tiles test_a test_b) /\
    (forall p, 0 <= p < 4 ->
       vget c' p
       = Ok (fold_left
               (fun acc k => fadd acc (fmul (tile_at test_a (16 * k + 4 * (Z.quot 5 16) + p))
                                            (tile_at test_b (16 * k + Z.rem 5 16))))
               (seqZ 0 4) (vtotal vzero p))) /\
    (forall p, ~ 0 <= p < 4 -> vget c' p = Undefined).
Proof.
  apply (C1_compute_result 5 test_a test_b
           (Tiles (<[5%nat := fzero]> test_a) (<[5%nat := fzero]> test_b)) vzero).
  - lia.
  - reflexivity.
  - reflexivity.
  - reflexivity.
  - reflexivity.
  - intros j Hj. cbn [a_tile b_tile].
    rewrite !list_lookup_insert_ne by lia. done.
Defined.

(** ** Lane coordinates *)

(** C2.  The map from a lane id t to (4 * (t / 16), t % 16) is injective
    on [0, 64), and a pair (m, n) is the image of a lane id of [0, 64)
    exactly when m is one of 0, 4, 8, 12 and n is in 0..15. *)
Theorem C2_lane_coverage :
  (forall t u, 0 <= t < 64 -> 0 <= u < 64 -> lane_mn t = lane_mn u -> t = u) /\
  (forall m n, (exists t, 0 <= t < 64 /\ lane_mn t = (m, n))
               <-> ((m = 0 \/ m = 4 \/ m = 8 \/ m = 12) /\ 0 <= n < 16)).
Proof.
  split.
  - intros t u Ht Hu [= Hm Hn].
    pose proof (lane_mn_recompose t). pose proof (lane_mn_recompose u). lia.
  - intros m n. split.
    + intros (t & Ht & [= <- <-]). split; [by apply lane_m_range | by apply lane_n_range].
    + intros [Hm Hn]. exists (4 * m + n). unfold lane_mn, lane_m, lane_n.
      split; [lia|]. f_equal; Z.quot_rem_to_equations; lia.
Qed.

(** C9.  For a lane id t in [0, 64) and k, p in 0..3, the subscripts
    16*k + m + p and 16*k + n of line 48 are in [0, 64); so both loads
    succeed on tiles of 64 elements and the loop nest runs to its end
    without leaving a tile. *)
Theorem C9_tile_indices_in_bounds (t : Z) :
  0 <= t < 64 ->
  (forall k p, 0 <= k < 4 -> 0 <= p < 4 ->
     0 <= 16 * k + lane_m t + p < 64 /\ 0 <= 16 * k + lane_n t < 64) /\
  (forall (at' bt : list float) (k p : Z),
     length at' = 64%nat -> length bt = 64%nat -> 0 <= k < 4 -> 0 <= p < 4 ->
     load at' (a_index t k p) = Ok (tile_at at' (a_index t k p)) /\
     load bt (b_index t k) = Ok (tile_at bt (b_index t k))) /\
  (forall (at' bt : list float) (c : floatx4_t),
     length at' = 64%nat -> length bt = 64%nat ->
     exists c', mfma_loops t at' bt c = Ok c').
Proof.
  intros Ht. split_and!.
  - intros k p Hk Hp. split.
    + apply (a_index_range t k p); lia.
    + apply (b_index_range t k); lia.
  - intros at' bt k p Hla Hlb Hk Hp.
    pose proof (a_index_range t k p Ht Hk Hp).
    pose proof (b_index_range t k Ht Hk).
    split; apply load_ok; lia.
  - intros at' bt c Hla Hlb. exists (lane_result at' bt t c). by apply mfma_loops_ok.
Qed.

Lemma C9_tile_indices_in_bounds_witness :
  (forall k p, 0 <= k < 4 -> 0 <= p < 4 ->
     0 <= 16 * k + lane_m 63 + p < 64 /\ 0 <= 16 * k + lane_n 63 < 64) /\
  (forall (at' bt : list float) (k p : Z),
     length at' = 64%nat -> length bt = 64%nat -> 0 <= k < 4 -> 0 <= p < 4 ->
     load at' (a_index 63 k p) = Ok (tile_at at' (a_index 63 k p)) /\
     load bt (b_index 63 k) = Ok (tile_at bt (b_index 63 k))) /\
  (forall (at' bt : list float) (c : floatx4_t),
     length at' = 64%nat -> length bt = 64%nat ->
     exists c', mfma_loops 63 at' bt c = Ok c').
Proof. apply (C9_tile_indices_in_bounds 63). lia. Defined.

(** ** The assertion of line 31 *)

Lemma bind_AssertFailed_inv {A B : Type} (m : outcome A) (f : A -> outcome B) :
  m ≫= f = AssertFailed -> m = AssertFailed \/ exists x, m = Ok x /\ f x = AssertFailed.
Proof. destruct m; cbn; try discriminate; eauto. Qed.

Lemma load_no_assert {X : Type} (l : list X) (i : Z) : load l i <> AssertFailed.
Proof. unfold load. destruct (in_bounds l i); [destruct (l !! _)|]; discriminate. Qed.

Lemma store_no_assert {X : Type} (l : list X) (i : Z) (x : X) : store l i x <> AssertFailed.
Proof. unfold store. destruct (in_bounds l i); discriminate. Qed.

Lemma publish_no_assert (t : Z) (a b : float) (T : tiles_t) : publish t a b T <> AssertFailed.
Proof.
  unfold publish. intros H.
  apply bind_AssertFailed_inv in H as [H | (x & _ & H)]; [by apply store_no_assert in H|].
  apply bind_AssertFailed_inv in H as [H | (y & _ & H)]; [by apply store_no_assert in H|].
  discriminate.
Qed.

Lemma loop_body_no_assert (t : Z) (at' bt : list float) (k p : Z) (c : floatx4_t) :
  loop_body t at' bt k p c <> AssertFailed.
Proof.
  unfold loop_body. intros H.
  apply bind_AssertFailed_inv in H as [H | (x & _ & H)]; [by apply load_no_assert in H|].
  apply bind_AssertFailed_inv in H as [H | (y & _ & H)]; [by apply load_no_assert in H|].
  apply bind_AssertFailed_inv in H as [H | (z & _ & H)].
  - unfold vget in H. by repeat case_match.
  - unfold vset in H. by repeat case_match.
Qed.

Lemma for_each_no_assert {A : Type} (idx : list Z) (body : Z -> A -> outcome A) (x : A) :
  (forall i y, body i y <> AssertFailed) -> for_each idx body x <> AssertFailed.
Proof.
  intros Hbody. revert x. induction idx as [|i idx IH]; intros x; cbn; [discriminate|].
  intros H. apply bind_AssertFailed_inv in H as [H | (y & _ & H)].
  - by apply Hbody in H.
  - by apply IH in H.
Qed.

Lemma mfma_loops_no_assert (t : Z) (at' bt : list float) (c : floatx4_t) :
  mfma_loops t at' bt c <> AssertFailed.
Proof.
  unfold mfma_loops. apply for_each_no_assert. intros k c1.
  apply for_each_no_assert. intros p c2. apply loop_body_no_assert.
Qed.

(** C7 (amended).  The assertion fails exactly for the lane ids
    [tid >= threads_per_subgroup]: it never fails for 0 <= tid < 64, it
    fails for every tid >= 64, and it does not fail for a negative tid,
    which it does not test. *)
Theorem C7_assertion_fails_iff (tid : Z) (a b : float) (c : floatx4_t) (T : tiles_t) :
  cpu_mfma_f32_16x16x4f32 tid a b c T = AssertFailed <-> 64 <= tid.
Proof.
  unfold cpu_mfma_f32_16x16x4f32, assert_tid, threads_per_subgroup.
  destruct (tid <? 64) eqn:Hlt.
  - apply Z.ltb_lt in Hlt. split; [|lia]. intros H. exfalso.
    apply bind_AssertFailed_inv in H as [H | (T' & _ & H)].
    { by apply publish_no_assert in H. }
    apply bind_AssertFailed_inv in H as [H | (c' & _ & H)]; [|discriminate].
    by apply mfma_loops_no_assert in H.
  - apply Z.ltb_ge in Hlt. split; [lia|done].
Qed.

(** a negative lane id passes the assertion and then writes outside the
    tile *)
Lemma C7_negative_lane_id_counterexample :
  (-1 < 0 \/ 64 <= -1) /\
  assert_tid (-1) = true /\
  cpu_mfma_f32_16x16x4f32 (-1) fzero fzero vzero tiles_init = Undefined.
Proof. split_and!; [lia | reflexivity | reflexivity]. Qed.

(** ** The barrier *)

Lemma lane_ok_arrivals (ph : nat) (l : lane) : lane_ok ph l -> (ph <= arrivals l)%nat.
Proof. unfold lane_ok, arrivals. destruct (pc l); cbn; lia. Qed.

(** [arrivals] grows by one at the arrival of line 42 and at no other
    statement *)
Lemma arrivals_step (l l' : lane) (s s' : shared_t) :
  lane_step l s = Ok (l', s') ->
  arrivals l' = (arrivals l + match pc l with BarrierArrive => 1 | _ => 0 end)%nat.
Proof.
  unfold lane_step, arrivals. destruct l as [t q xa xb xc r m].
  cbn [pc tid arg_a arg_b arg_c round more_calls]. destruct q.
  - intros H; inv_ok; subst; cbn; lia.
  - intros H; inv_ok; subst; cbn; lia.
  - destruct (assert_tid _); [|discriminate]. intros H; inv_ok; subst; cbn; lia.
  - intros H; inv_ok; subst; cbn; lia.
  - intros H; inv_ok; subst; cbn; lia.
  - destruct (barrier_arrive _). intros H; inv_ok; subst; cbn; lia.
  - destruct (barrier_released _ _); [|discriminate]. intros H; inv_ok; subst; cbn; lia.
  - intros H; inv_ok; subst. unfold loop_step in Hx.
    destruct (k <? 4); [destruct (p <? 4)|]; inv_ok; subst; cbn; lia.
  - intros H; inv_ok; subst. unfold after_call. destruct m; cbn; lia.
  - discriminate.
Qed.

(** only the loop nest looks at what the tiles hold: at any other
    statement the worker's next local state, the barrier and the array
    [c] come out the same whatever the tiles contain *)
Lemma lane_step_ignores_tiles (l : lane) (s : shared_t) (T : tiles_t) :
  reads_tiles (pc l) = false ->
  length (a_tile T) = length (a_tile (tiles s)) ->
  length (b_tile T) = length (b_tile (tiles s)) ->
  (fun r => (fst r, barrier (snd r), mem_c (snd r))) <$> lane_step l (set_tiles s T)
  = (fun r => (fst r, barrier (snd r), mem_c (snd r))) <$> lane_step l s.
Proof.
  intros Hreads Hla Hlb. unfold lane_step.
  destruct (pc l); try discriminate; cbn [set_tiles tiles barrier mem_a mem_b mem_c a_tile b_tile].
  - done.
  - destruct (load (mem_a s) _); [cbn|done ..].
    destruct (load (mem_b s) _); [cbn|done ..].
    by destruct (load (mem_c s) _).
  - by destruct (assert_tid _).
  - unfold store, in_bounds. rewrite Hla. by destruct (_ && _).
  - unfold store, in_bounds. rewrite Hlb. by destruct (_ && _).
  - by destruct (barrier_arrive _).
  - by destruct (barrier_released _ _).
  - by destruct (store _ _ _).
  - done.
Qed.

(** C4.  In every state a launch can reach, whatever the number of calls
    each worker issues: there are 64 workers; a worker that is in the loop
    nest of its call number r, the only statements that read the tiles,
    finds that every worker has arrived at the barrier more than r times,
    that is, has arrived in its own call number r; and a worker waiting at
    the barrier in its call number r holds the token of phase r and can be
    released only when every worker has arrived more than r times, so an
    arrival for call r + 1 is not released by the end of phase r. *)
Theorem C4_barrier_discipline (n : nat) (a b : list float) (c : list floatx4_t)
    (sched : list nat) (s : state) :
  run sched (launch_calls n a b c) = Ok s ->
  length (lanes s) = 64%nat /\
  forall i l, lanes s !! i = Some l ->
    (reads_tiles (pc l) = true ->
     Forall (fun l' => (round l < arrivals l')%nat) (lanes s)) /\
    (forall tok, pc l = BarrierWait tok ->
       tok = round l /\
       (barrier_released (barrier (sh s)) tok = true ->
        Forall (fun l' => (round l < arrivals l')%nat) (lanes s))).
Proof.
  intros Hrun. apply barrier_inv_run in Hrun as (Hlen & _ & Hok & _).
  split; [done|]. intros i l Hl.
  pose proof (proj1 (Forall_lookup _ _) Hok i l Hl) as Hokl. unfold lane_ok in Hokl.
  split.
  - intros Hreads. destruct (pc l); try discriminate.
    eapply Forall_impl; [exact Hok|]. intros l' Hl'.
    apply lane_ok_arrivals in Hl'. lia.
  - intros tok Hpc. rewrite Hpc in Hokl. destruct Hokl as [-> _]. split; [done|].
    unfold barrier_released. intros Hrel. apply Nat.ltb_lt in Hrel.
    eapply Forall_impl; [exact Hok|]. intros l' Hl'.
    apply lane_ok_arrivals in Hl'. lia.
Qed.

Lemma C4_barrier_discipline_witness :
  length (lanes test_second_round) = 64%nat /\
  forall i l, lanes test_second_round !! i = Some l ->
    (reads_tiles (pc l) = true ->
     Forall (fun l' => (round l < arrivals l')%nat) (lanes test_second_round)) /\
    (forall tok, pc l = BarrierWait tok ->
       tok = round l /\
       (barrier_released (barrier (sh test_second_round)) tok = true ->
        Forall (fun l' => (round l < arrivals l')%nat) (lanes test_second_round))).
Proof.
  apply (C4_barrier_discipline 1 test_a test_b test_c (round_robin 35)).
  vm_compute. reflexivity.
Defined.

(** ** The tiles *)

Lemma lane_step_tiles (l l' : lane) (s s' : shared_t) :
  lane_step l s = Ok (l', s') ->
  match pc l with
  | PublishA =>
      0 <= tid l < Z.of_nat (length (a_tile (tiles s))) /\
      tiles s' = Tiles (<[Z.to_nat (tid l) := arg_a l]> (a_tile (tiles s))) (b_tile (tiles s))
  | PublishB =>
      0 <= tid l < Z.of_nat (length (b_tile (tiles s))) /\
      tiles s' = Tiles (a_tile (tiles s)) (<[Z.to_nat (tid l) := arg_b l]> (b_tile (tiles s)))
  | _ => tiles s' = tiles s
  end.
Proof.
  unfold lane_step. destruct (pc l); intros H; inv_ok; subst; try done.
  - by destruct (assert_tid _); inv_ok; subst.
  - apply store_inv in Hx as [Hb ->]. done.
  - apply store_inv in Hx as [Hb ->]. done.
  - by destruct (barrier_arrive _); inv_ok; subst.
  - by destruct (barrier_released _ _); inv_ok; subst.
Qed.

(** C5.  In every state the launch of [main] can reach: a step of worker
    i leaves every slot j <> i of both tiles as it was; its statement of
    line 38 puts its operand [a] in slot i of the A tile and leaves the B
    tile alone, its statement of line 39 does the same with [b] and the B
    tile, and none of its other statements changes a tile; and as soon as
    some worker is past the barrier, the two tiles are the arrays [a] and
    [b], slot i holding what lane i supplied.  The publishes take place:
    a worker at line 38 or 39 holds a[i], b[i] as its operands and can
    execute the statement, which writes its slot; and every run can be
    continued until every worker has passed the barrier and returned,
    with the tiles then holding [a] and [b]. *)
Theorem C5_publish_isolation (a b : list float) (c : list floatx4_t)
    (sched : list nat) (s : state) :
  length a = 64%nat -> length b = 64%nat -> length c = 64%nat ->
  run sched (launch a b c) = Ok s ->
  (forall i l s', lanes s !! i = Some l -> step i s = Ok s' ->
     (forall j : nat, j <> i ->
        a_tile (tiles (sh s')) !! j = a_tile (tiles (sh s)) !! j /\
        b_tile (tiles (sh s')) !! j = b_tile (tiles (sh s)) !! j) /\
     (pc l = PublishA ->
        a_tile (tiles (sh s')) !! i = Some (arg_a l) /\
        b_tile (tiles (sh s')) = b_tile (tiles (sh s))) /\
     (pc l = PublishB ->
        b_tile (tiles (sh s')) !! i = Some (arg_b l) /\
        a_tile (tiles (sh s')) = a_tile (tiles (sh s))) /\
     (pc l <> PublishA -> pc l <> PublishB -> tiles (sh s') = tiles (sh s))) /\
  (forall i l, lanes s !! i = Some l -> passed_barrier (pc l) = true ->
     tiles (sh s) = Tiles a b) /\
  (forall i l, lanes s !! i = Some l -> pc l = PublishA ->
     a !! i = Some (arg_a l) /\
     exists s', step i s = Ok s' /\
       tiles (sh s') = Tiles (<[i := arg_a l]> (a_tile (tiles (sh s))))
                             (b_tile (tiles (sh s)))) /\
  (forall i l, lanes s !! i = Some l -> pc l = PublishB ->
     b !! i = Some (arg_b l) /\
     exists s', step i s = Ok s' /\
       tiles (sh s') = Tiles (a_tile (tiles (sh s)))
                             (<[i := arg_b l]> (b_tile (tiles (sh s))))) /\
  (exists rest s_end,
     run (sched ++ rest) (launch a b c) = Ok s_end /\ complete s_end = true /\
     Forall (fun l => passed_barrier (pc l) = true) (lanes s_end) /\
     tiles (sh s_end) = Tiles a b).
Proof.
  intros Ha Hb Hc Hrun.
  destruct (inv_run a b c Ha Hb Hc sched s Hrun) as [Hbar Hdata].
  pose proof Hdata as (_ & _ & Hla & Hlb & _ & Hlanes).
  pose proof Hbar as (Hlen & _).
  split_and!.
  - intros i l s' Hl Hstep.
    pose proof (lookup_lt_Some _ _ _ Hl) as Hi. rewrite Hlen in Hi.
    apply step_inv in Hstep as (l0 & l' & sh' & Hl0 & Hls & ->).
    assert (l0 = l) as -> by congruence. cbn [sh].
    pose proof (lane_step_tiles _ _ _ _ Hls) as Htiles.
    pose proof (lane_inv_tid a b c _ _ _ i l (Hlanes i l Hl)) as Htid.
    destruct (pc l) eqn:Hpc;
      try (rewrite Htiles; split_and!; done).
    + destruct Htiles as [_ ->]. rewrite Htid by done. rewrite Nat2Z.id. cbn.
      split_and!; try done.
      * intros j Hj. by rewrite list_lookup_insert_ne.
      * intros _. by rewrite list_lookup_insert_eq by lia.
    + destruct Htiles as [_ ->]. rewrite Htid by done. rewrite Nat2Z.id. cbn.
      split_and!; try done.
      * intros j Hj. by rewrite list_lookup_insert_ne.
      * intros _. by rewrite list_lookup_insert_eq by lia.
  - intros i l Hl Hpassed. by apply (tiles_published a b c Ha Hb Hc s i l).
  - intros i l Hl Hpc.
    pose proof (lookup_lt_Some _ _ _ Hl) as Hi. rewrite Hlen in Hi.
    destruct (Hlanes i l Hl) as [_ Hinv]. rewrite Hpc in Hinv.
    destruct Hinv as (Ht & _ & _ & Hargs & _).
    split; [exact Hargs|].
    unfold step. rewrite Hl. unfold lane_step. rewrite Hpc.
    rewrite (store_ok (a_tile (tiles (sh s)))) by lia.
    cbn [mbind outcome_mbind obind fst snd]. eexists. split; [reflexivity|].
    cbn [sh set_tiles tiles]. by rewrite Ht, Nat2Z.id.
  - intros i l Hl Hpc.
    pose proof (lookup_lt_Some _ _ _ Hl) as Hi. rewrite Hlen in Hi.
    destruct (Hlanes i l Hl) as [_ Hinv]. rewrite Hpc in Hinv.
    destruct Hinv as (Ht & _ & _ & (_ & Hargs & _) & _).
    split; [exact Hargs|].
    unfold step. rewrite Hl. unfold lane_step. rewrite Hpc.
    rewrite (store_ok (b_tile (tiles (sh s)))) by lia.
    cbn [mbind outcome_mbind obind fst snd]. eexists. split; [reflexivity|].
    cbn [sh set_tiles tiles]. by rewrite Ht, Nat2Z.id.
  - destruct (launch_terminates a b c Ha Hb Hc sched s Hrun) as (rest & s_end & Hend & Hdone & _).
    exists rest, s_end. split_and!; [done | done | |].
    + apply Forall_forall. intros l Hl.
      unfold complete in Hdone. rewrite forallb_forall in Hdone.
      apply list_elem_of_In, Hdone in Hl. unfold is_finished in Hl.
      by destruct (pc l).
    + by destruct (complete_result a b c Ha Hb Hc _ s_end Hend Hdone) as (_ & _ & -> & _).
Qed.

Lemma C5_publish_isolation_witness :
  (forall i l s', lanes test_publishing_b !! i = Some l -> step i test_publishing_b = Ok s' ->
     (forall j : nat, j <> i ->
        a_tile (tiles (sh s')) !! j = a_tile (tiles (sh test_publishing_b)) !! j /\
        b_tile (tiles (sh s')) !! j = b_tile (tiles (sh test_publishing_b)) !! j) /\
     (pc l = PublishA ->
        a_tile (tiles (sh s')) !! i = Some (arg_a l) /\
        b_tile (tiles (sh s')) = b_tile (tiles (sh test_publishing_b))) /\
     (pc l = PublishB ->
        b_tile (tiles (sh s')) !! i = Some (arg_b l) /\
        a_tile (tiles (sh s')) = a_tile (tiles (sh test_publishing_b))) /\
     (pc l <> PublishA -> pc l <> PublishB ->
        tiles (sh s') = tiles (sh test_publishing_b))) /\
  (forall i l, lanes test_publishing_b !! i = Some l -> passed_barrier (pc l) = true ->
     tiles (sh test_publishing_b) = Tiles test_a test_b) /\
  (forall i l, lanes test_publishing_b !! i = Some l -> pc l = PublishA ->
     test_a !! i = Some (arg_a l) /\
     exists s', step i test_publishing_b = Ok s' /\
       tiles (sh s') = Tiles (<[i := arg_a l]> (a_tile (tiles (sh test_publishing_b))))
                             (b_tile (tiles (sh test_publishing_b)))) /\
  (forall i l, lanes test_publishing_b !! i = Some l -> pc l = PublishB ->
     test_b !! i = Some (arg_b l) /\
     exists s', step i test_publishing_b = Ok s' /\
       tiles (sh s') = Tiles (a_tile (tiles (sh test_publishing_b)))
                             (<[i := arg_b l]> (b_tile (tiles (sh test_publishing_b))))) /\
  (exists rest s_end,
     run ((round_robin 3 ++ [0%nat]) ++ rest) (launch test_a test_b test_c) = Ok s_end /\
     complete s_end = true /\
     Forall (fun l => passed_barrier (pc l) = true) (lanes s_end) /\
     tiles (sh s_end) = Tiles test_a test_b).
Proof.
  apply (C5_publish_isolation test_a test_b test_c (round_robin 3 ++ [0%nat])).
  - reflexivity.
  - reflexivity.
  - reflexivity.
  - vm_compute. reflexivity.
Defined.

(** ** Complete runs *)

(** C6.  Two complete runs of the launch of [main] on the same arrays
    [a], [b], [c], under any two schedules, end with the same array [c]. *)
Theorem C6_determinism (a b : list float) (c : list floatx4_t)
    (sched1 sched2 : list nat) (s1 s2 : state) :
  length a = 64%nat -> length b = 64%nat -> length c = 64%nat ->
  run sched1 (launch a b c) = Ok s1 -> complete s1 = true ->
  run sched2 (launch a b c) = Ok s2 -> complete s2 = true ->
  mem_c (sh s1) = mem_c (sh s2).
Proof.
  intros Ha Hb Hc Hrun1 Hdone1 Hrun2 Hdone2.
  destruct (complete_result a b c Ha Hb Hc sched1 s1 Hrun1 Hdone1) as (_ & _ & _ & ->).
  destruct (complete_result a b c Ha Hb Hc sched2 s2 Hrun2 Hdone2) as (_ & _ & _ & ->).
  done.
Qed.

Lemma C6_determinism_witness : mem_c (sh test_final) = mem_c (sh test_final_rev).
Proof.
  apply (C6_determinism test_a test_b test_c (round_robin 29) (reverse_robin 29)).
  - reflexivity.
  - reflexivity.
  - reflexivity.
  - vm_compute. reflexivity.
  - vm_compute. reflexivity.
  - vm_compute. reflexivity.
  - vm_compute. reflexivity.
Defined.

(** ** The kernel entry point *)

Lemma fold_left_ext_in {A B : Type} (f g : A -> B -> A) (l : list B) (x : A) :
  (forall acc k, k ∈ l -> f acc k = g acc k) -> fold_left f l x = fold_left g l x.
Proof.
  revert x. induction l as [|k l IH]; intros x Hfg; cbn; [done|].
  rewrite Hfg by left. apply IH. intros acc k' Hk'. apply Hfg. by right.
Qed.

Lemma vtotal_lane_result (A B : list float) (t p : Z) (c : floatx4_t) :
  0 <= p < 4 ->
  vtotal (lane_result A B t c) p
  = fold_left (fun acc k => fadd acc (fmul (tile_at A (16 * k + 4 * (Z.quot t 16) + p))
                                           (tile_at B (16 * k + Z.rem t 16))))
              (seqZ 0 4) (vtotal c p).
Proof. intros Hp. unfold vtotal at 1. by rewrite vget_lane_result. Qed.

(** the array after one instruction, read as a matrix *)
Lemma C_elem_mfma_all (a b : list float) (c : list floatx4_t) (row col : Z) :
  length c = 64%nat -> 0 <= row < 16 -> 0 <= col < 16 ->
  C_elem (mfma_all a b c) row col = mma_elem a b c row col.
Proof.
  intros Hc Hrow Hcol. unfold mma_elem, mfma_all, C_elem.
  remember (4 * (4 * (row / 4)) + col) as t eqn:Et.
  assert (0 <= t < 64) as Ht by (subst t; Z.div_mod_to_equations; lia).
  assert (forall k, 16 * k + 4 * (Z.quot t 16) + row mod 4 = 16 * k + row) as Hai
    by (intros k; subst t; Z.quot_rem_to_equations; Z.div_mod_to_equations; lia).
  assert (forall k, 16 * k + Z.rem t 16 = 16 * k + col) as Hbi
    by (intros k; subst t; Z.quot_rem_to_equations; Z.div_mod_to_equations; lia).
  assert (0 <= row mod 4 < 4) as Hp by (Z.div_mod_to_equations; lia).
  clear Et.
  assert (imap (fun i ci => lane_result a b (Z.of_nat i) ci) c !!! Z.to_nat t
          = lane_result a b t (c !!! Z.to_nat t)) as ->.
  { apply list_lookup_total_correct. rewrite list_lookup_imap.
    rewrite (list_lookup_lookup_total_lt c (Z.to_nat t)) by lia. cbn.
    by rewrite Z2Nat.id by lia. }
  rewrite vtotal_lane_result by done.
  apply fold_left_ext_in. intros acc k _. unfold A_elem, B_elem.
  by rewrite Hai, Hbi.
Qed.

(** C8.  In every state the launch of [main] can reach: when worker i
    executes the operand half of line 58 it changes nothing shared and its
    call receives a[i], b[i] and c[i]; when it executes the store half it
    replaces element i of [c], and nothing else, by the fragment
    [cpu_mfma_f32_16x16x4f32] computes for lane i from the whole arrays
    [a] and [b] and the initial c[i]; and when every worker has returned,
    [a] and [b] are unchanged and [c], read as a 16x16 matrix, is the
    initial C with the product of the 16x4 matrix A and the 4x16 matrix B
    accumulated onto it.  The invocation does perform the instruction: a
    worker at either half of line 58 can execute it, and every run can be
    continued until every worker has returned from its one call, [a] and
    [b] being then unchanged and [c] holding that result. *)
Theorem C8_kernel_entry_point (a b : list float) (c : list floatx4_t)
    (sched : list nat) (s : state) :
  length a = 64%nat -> length b = 64%nat -> length c = 64%nat ->
  run sched (launch a b c) = Ok s ->
  (forall i l s', lanes s !! i = Some l -> pc l = KernelEntry -> step i s = Ok s' ->
     sh s' = sh s /\
     exists l', lanes s' !! i = Some l' /\ a !! i = Some (arg_a l') /\
                b !! i = Some (arg_b l') /\ c !! i = Some (arg_c l')) /\
  (forall i l s', lanes s !! i = Some l -> pc l = KernelStore -> step i s = Ok s' ->
     exists ci, c !! i = Some ci /\
       mem_c (sh s') = <[i := lane_result a b (Z.of_nat i) ci]> (mem_c (sh s))) /\
  (complete s = true ->
     mem_a (sh s) = a /\ mem_b (sh s) = b /\ mem_c (sh s) = mfma_all a b c /\
     forall row col, 0 <= row < 16 -> 0 <= col < 16 ->
       C_elem (mem_c (sh s)) row col = mma_elem a b c row col) /\
  (forall i l, lanes s !! i = Some l -> pc l = KernelEntry \/ pc l = KernelStore ->
     exists s', step i s = Ok s') /\
  (exists rest s_end,
     run (sched ++ rest) (launch a b c) = Ok s_end /\ complete s_end = true /\
     Forall (fun l => round l = 1%nat) (lanes s_end) /\
     mem_a (sh s_end) = a /\ mem_b (sh s_end) = b /\
     mem_c (sh s_end) = mfma_all a b c /\
     forall row col, 0 <= row < 16 -> 0 <= col < 16 ->
       C_elem (mem_c (sh s_end)) row col = mma_elem a b c row col).
Proof.
  intros Ha Hb Hc Hrun.
  destruct (inv_run a b c Ha Hb Hc sched s Hrun) as [Hbar Hdata].
  pose proof Hdata as (_ & _ & _ & _ & Hlc & Hlanes).
  pose proof Hbar as (Hlen & _).
  split_and!.
  - intros i l s' Hl Hpc Hstep.
    pose proof (lookup_lt_Some _ _ _ Hl) as Hi.
    assert (data_inv a b c s') as (_ & _ & _ & _ & _ & Hlanes').
    { eapply data_inv_step; eauto. }
    apply step_inv in Hstep as (l0 & l' & sh' & Hl0 & Hls & ->).
    assert (l0 = l) as -> by congruence. cbn [sh lanes] in *.
    specialize (Hlanes' i l'). rewrite list_lookup_insert_eq in Hlanes' by done.
    specialize (Hlanes' eq_refl) as [_ Hinv'].
    unfold lane_step in Hls. rewrite Hpc in Hls. inv_ok. subst.
    split; [done|]. eexists. split; [by apply list_lookup_insert_eq|].
    cbn in Hinv'. unfold args_ok in Hinv'. cbn in *. tauto.
  - intros i l s' Hl Hpc Hstep.
    pose proof (lookup_lt_Some _ _ _ Hl) as Hi.
    destruct (Hlanes i l Hl) as [_ Hinv]. rewrite Hpc in Hinv.
    destruct Hinv as (Ht & _ & _ & _ & _ & ci & Hci & Hres).
    apply step_inv in Hstep as (l0 & l' & sh' & Hl0 & Hls & ->).
    assert (l0 = l) as -> by congruence. cbn [sh].
    unfold lane_step in Hls. rewrite Hpc in Hls. inv_ok. subst.
    apply store_inv in Hx as [_ ->]. exists ci. split; [done|]. cbn.
    by rewrite Ht, Nat2Z.id, Hres.
  - intros Hdone.
    destruct (complete_result a b c Ha Hb Hc sched s Hrun Hdone) as (-> & -> & _ & ->).
    split_and!; try done. intros row col Hrow Hcol. by apply C_elem_mfma_all.
  - intros i l Hl Hpc.
    destruct (step_safe a b c Ha Hb Hc i s Hbar Hdata) as [Hok | [_ Hblocked]]; [done|].
    destruct (Hblocked l Hl) as [Hf | (tok & Hw & _)];
      destruct Hpc as [Hpc | Hpc]; congruence.
  - destruct (launch_terminates a b c Ha Hb Hc sched s Hrun)
      as (rest & s_end & Hend & Hdone & _).
    exists rest, s_end.
    destruct (inv_run a b c Ha Hb Hc _ s_end Hend) as [_ (_ & _ & _ & _ & _ & Hlanes_end)].
    destruct (complete_result a b c Ha Hb Hc _ s_end Hend Hdone) as (-> & -> & _ & ->).
    split_and!; try done.
    + apply Forall_lookup. intros i l Hl.
      destruct (Hlanes_end i l Hl) as [_ Hinv].
      unfold complete in Hdone. rewrite forallb_forall in Hdone.
      assert (is_finished l = true) as Hfin.
      { apply Hdone, list_elem_of_In. by eapply list_elem_of_lookup_2. }
      unfold is_finished in Hfin. destruct (pc l); try discriminate. tauto.
    + intros row col Hrow Hcol. by apply C_elem_mfma_all.
Qed.

Lemma C8_kernel_entry_point_witness :
  (forall i l s', lanes test_storing !! i = Some l -> pc l = KernelEntry ->
     step i test_storing = Ok s' ->
     sh s' = sh test_storing /\
     exists l', lanes s' !! i = Some l' /\ test_a !! i = Some (arg_a l') /\
                test_b !! i = Some (arg_b l') /\ test_c !! i = Some (arg_c l')) /\
  (forall i l s', lanes test_storing !! i = Some l -> pc l = KernelStore ->
     step i test_storing = Ok s' ->
     exists ci, test_c !! i = Some ci /\
       mem_c (sh s') = <[i := lane_result test_a test_b (Z.of_nat i) ci]> (mem_c (sh test_storing))) /\
  (complete test_storing = true ->
     mem_a (sh test_storing) = test_a /\ mem_b (sh test_storing) = test_b /\
     mem_c (sh test_storing) = mfma_all test_a test_b test_c /\
     forall row col, 0 <= row < 16 -> 0 <= col < 16 ->
       C_elem (mem_c (sh test_storing)) row col = mma_elem test_a test_b test_c row col) /\
  (forall i l, lanes test_storing !! i = Some l -> pc l = KernelEntry \/ pc l = KernelStore ->
     exists s', step i test_storing = Ok s') /\
  (exists rest s_end,
     run (round_robin 28 ++ rest) (launch test_a test_b test_c) = Ok s_end /\
     complete s_end = true /\
     Forall (fun l => round l = 1%nat) (lanes s_end) /\
     mem_a (sh s_end) = test_a /\ mem_b (sh s_end) = test_b /\
     mem_c (sh s_end) = mfma_all test_a test_b test_c /\
     forall row col, 0 <= row < 16 -> 0 <= col < 16 ->
       C_elem (mem_c (sh s_end)) row col = mma_elem test_a test_b test_c row col).
Proof.
  apply (C8_kernel_entry_point test_a test_b test_c (round_robin 28)).
  - reflexivity.
  - reflexivity.
  - reflexivity.
  - vm_compute. reflexivity.
Defined.

(** ** The identity-matrix scenario *)

Lemma Ok_inj {A : Type} (x y : A) : Ok x = Ok y -> x = y.
Proof. by intros [= ->]. Qed.

Lemma reference_on_test_matrices (row col : Z) :
  0 <= row < 16 -> 0 <= col < 16 ->
  C_elem (mfma_all test_a test_b test_c) row col
  = reference_mma test_a test_b test_c row col.
Proof.
  intros Hrow Hcol.
  assert (row = 0 \/ row = 1 \/ row = 2 \/ row = 3 \/ row = 4 \/ row = 5 \/ row = 6 \/
          row = 7 \/ row = 8 \/ row = 9 \/ row = 10 \/ row = 11 \/ row = 12 \/
          row = 13 \/ row = 14 \/ row = 15) as Hr by lia.
  assert (col = 0 \/ col = 1 \/ col = 2 \/ col = 3 \/ col = 4 \/ col = 5 \/ col = 6 \/
          col = 7 \/ col = 8 \/ col = 9 \/ col = 10 \/ col = 11 \/ col = 12 \/
          col = 13 \/ col = 14 \/ col = 15) as Hcl by lia.
  clear Hrow Hcol.
  repeat (destruct Hr as [-> | Hr]); try subst row;
    repeat (destruct Hcl as [-> | Hcl]); try subst col;
    vm_compute; reflexivity.
Qed.

(** C3.  [init_test_matrices] fills the three arrays of [main], whatever
    they held, with a[i] = b[i] = 1 if i / 16 == i % 4 and 0 otherwise and
    c[i] = {i, 0, 0, 0}; every complete run of the launch on these arrays
    ends with an array [c] that, read as a 16x16 matrix, equals the
    reference multiply-accumulate of A (16x4) and B (4x16) onto the
    initial C. *)
Theorem C3_identity_scenario (a0 b0 : list float) (c0 : list floatx4_t)
    (a b : list float) (c : list floatx4_t) (sched : list nat) (s : state) :
  length a0 = 64%nat -> length b0 = 64%nat -> length c0 = 64%nat ->
  init_test_matrices a0 b0 c0 = Ok (a, b, c) ->
  run sched (launch a b c) = Ok s -> complete s = true ->
  (forall i : nat, (i < 64)%nat ->
     a !! i = Some (float_of_bool (Z.of_nat i `quot` 16 =? Z.of_nat i `rem` 4)) /\
     b !! i = Some (float_of_bool (Z.of_nat i `quot` 16 =? Z.of_nat i `rem` 4)) /\
     c !! i = Some (Floatx4 (float_of_int (Z.of_nat i)) fzero fzero fzero)) /\
  (forall row col, 0 <= row < 16 -> 0 <= col < 16 ->
     C_elem (mem_c (sh s)) row col = reference_mma a b c row col).
Proof.
  intros Ha0 Hb0 Hc0 Hinit Hrun Hdone.
  rewrite init_test_matrices_any in Hinit by done.
  apply Ok_inj, pair_equal_spec in Hinit as [Hab <-].
  apply pair_equal_spec in Hab as [<- <-].
  split.
  - intros i Hi.
    do 64 (destruct i as [|i]; [vm_compute; repeat split|]). lia.
  - intros row col Hrow Hcol.
    destruct (complete_result test_a test_b test_c eq_refl eq_refl eq_refl sched s Hrun Hdone)
      as (_ & _ & _ & ->).
    by apply reference_on_test_matrices.
Qed.

Lemma C3_identity_scenario_witness :
  (forall i : nat, (i < 64)%nat ->
     test_a !! i = Some (float_of_bool (Z.of_nat i `quot` 16 =? Z.of_nat i `rem` 4)) /\
     test_b !! i = Some (float_of_bool (Z.of_nat i `quot` 16 =? Z.of_nat i `rem` 4)) /\
     test_c !! i = Some (Floatx4 (float_of_int (Z.of_nat i)) fzero fzero fzero)) /\
  (forall row col, 0 <= row < 16 -> 0 <= col < 16 ->
     C_elem (mem_c (sh test_final)) row col = reference_mma test_a test_b test_c row col).
Proof.
  apply (C3_identity_scenario zeros64 zeros64 vzeros64 test_a test_b test_c
           (round_robin 29) test_final).
  - reflexivity.
  - reflexivity.
  - reflexivity.
  - vm_compute. reflexivity.
  - vm_compute. reflexivity.
  - vm_compute. reflexivity.
Defined.

(** ** The array [c] *)






(* ================================================================== *)
(** * Further properties of the launch, the helpers and [main] *)

(** ** The launch as a whole *)

(** X1.  Whatever the schedule, the launch of [main] on three arrays of
    64 elements never fails the assertion of line 31 and never accesses
    an array or a tile out of range: a run either goes through or stops
    at a worker that cannot move. *)
Theorem X1_launch_never_faults (a b : list float) (c : list floatx4_t)
    (sched : list nat) :
  length a = 64%nat -> length b = 64%nat -> length c = 64%nat ->
  run sched (launch a b c) <> AssertFailed /\
  run sched (launch a b c) <> Undefined.
Proof.
  intros Ha Hb Hc.
  destruct (run_safe a b c Ha Hb Hc sched) as [-> | [s ->]]; by split.
Qed.

Lemma X1_launch_never_faults_witness :
  run (round_robin 9) (launch test_a test_b test_c) <> AssertFailed /\
  run (round_robin 9) (launch test_a test_b test_c) <> Undefined.
Proof.
  apply (X1_launch_never_faults test_a test_b test_c (round_robin 9)); reflexivity.
Defined.

(** X2.  The launch of [main] cannot deadlock: in every state it can
    reach in which some worker has not returned, some worker can make a
    step. *)
Theorem X2_launch_no_deadlock (a b : list float) (c : list floatx4_t)
    (sched : list nat) (s : state) :
  length a = 64%nat -> length b = 64%nat -> length c = 64%nat ->
  run sched (launch a b c) = Ok s -> complete s = false ->
  exists i s', (i < 64)%nat /\ step i s = Ok s'.
Proof.
  intros Ha Hb Hc Hrun Hdone.
  destruct (launch_progress a b c Ha Hb Hc sched s Hrun Hdone) as (i & s' & Hstep).
  exists i, s'. split; [|done].
  apply barrier_inv_run in Hrun as (Hlen & _).
  apply step_inv in Hstep as (l & _ & _ & Hl & _).
  apply lookup_lt_Some in Hl. lia.
Qed.

Lemma X2_launch_no_deadlock_witness :
  exists i s', (i < 64)%nat /\ step i test_storing = Ok s'.
Proof.
  apply (X2_launch_no_deadlock test_a test_b test_c (round_robin 28) test_storing).
  - reflexivity.
  - reflexivity.
  - reflexivity.
  - vm_compute. reflexivity.
  - vm_compute. reflexivity.
Defined.

(** X3.  Every run of the launch of [main] has at most 64 * 29 = 1856
    steps, it has exactly that many if and only if every worker has
    returned, and it can always be continued to such a run: the launch
    terminates under every schedule. *)
Theorem X3_launch_terminates (a b : list float) (c : list floatx4_t)
    (sched : list nat) (s : state) :
  length a = 64%nat -> length b = 64%nat -> length c = 64%nat ->
  run sched (launch a b c) = Ok s ->
  (length sched <= 1856)%nat /\
  (complete s = true <-> length sched = 1856%nat) /\
  exists rest s', run (sched ++ rest) (launch a b c) = Ok s' /\ complete s' = true.
Proof.
  intros Ha Hb Hc Hrun.
  pose proof (run_steps_left _ _ _ Hrun) as Hsteps.
  rewrite (total_launch a b c) in Hsteps.
  destruct (inv_run a b c Ha Hb Hc sched s Hrun) as [_ Hdata].
  split_and!.
  - lia.
  - split.
    + intros Hdone. pose proof (complete_total a b c s Hdata Hdone). lia.
    + intros Hlen. unfold complete. apply forallb_forall. intros l Hl.
      apply list_elem_of_In in Hl.
      assert (steps_left l = 0%nat) as Hz by (apply (total_zero steps_left (lanes s)); [lia|done]).
      unfold steps_left, is_finished in *. destruct (pc l); lia || done.
  - destruct (launch_terminates a b c Ha Hb Hc sched s Hrun) as (rest & s' & H1 & H2 & _).
    eauto.
Qed.

Lemma X3_launch_terminates_witness :
  (length (round_robin 28) <= 1856)%nat /\
  (complete test_storing = true <-> length (round_robin 28) = 1856%nat) /\
  exists rest s', run (round_robin 28 ++ rest) (launch test_a test_b test_c) = Ok s' /\
                  complete s' = true.
Proof.
  apply (X3_launch_terminates test_a test_b test_c (round_robin 28) test_storing).
  - reflexivity.
  - reflexivity.
  - reflexivity.
  - vm_compute. reflexivity.
Defined.

(** ** A cohort of fewer than 64 workers *)

Lemma count_insert_le {A : Type} (f : A -> bool) (l : list A) (i : nat) (x y : A) :
  l !! i = Some x -> f x = false -> (count f (<[i := y]> l) <= length l)%nat.
Proof.
  intros Hl Hx. pose proof (count_le_length f (<[i := y]> l)) as Hle.
  by rewrite length_insert in Hle.
Qed.

(** only the store of line 58 changes the array [c] *)
Lemma lane_step_mem_c (l l' : lane) (s s' : shared_t) :
  lane_step l s = Ok (l', s') -> pc l <> KernelStore -> mem_c s' = mem_c s.
Proof.
  unfold lane_step. destruct (pc l); intros H Hpc; inv_ok; subst; try done.
  - by destruct (assert_tid _); inv_ok; subst.
  - by destruct (barrier_arrive _); inv_ok; subst.
  - by destruct (barrier_released _ _); inv_ok; subst.
Qed.

(** a step of a worker that is before the barrier, and not waiting at
    it, leaves it before the barrier *)
Lemma lane_step_before_barrier (l l' : lane) (s s' : shared_t) :
  lane_step l s = Ok (l', s') ->
  passed_barrier (pc l) = false -> (forall tok, pc l <> BarrierWait tok) ->
  passed_barrier (pc l') = false.
Proof.
  unfold lane_step. destruct (pc l) eqn:Hpc; intros H Hnot Hnw; inv_ok; subst;
    try done.
  - by destruct (assert_tid _); inv_ok; subst.
  - by destruct (barrier_arrive _); inv_ok; subst.
  - by destruct (Hnw tok).
Qed.

Lemma stuck_inv_step (i : nat) (s s' : state) :
  stuck_inv s -> step i s = Ok s' ->
  stuck_inv s' /\ mem_c (sh s') = mem_c (sh s).
Proof.
  intros (Hlen & Hph & Hexp & Hpend & Hall) Hstep.
  apply step_inv in Hstep as (l & l' & sh' & Hl & Hls & ->).
  pose proof (proj1 (Forall_lookup _ _) Hall i l Hl) as [Hnot Htok].
  pose proof (count_insert (waits_in 0) _ i l l' Hl) as Hcnt.
  pose proof (count_le_length (waits_in 0) (<[i := l']> (lanes s))) as Hle.
  rewrite length_insert in Hle.
  assert (pc l <> KernelStore) as Hns by (intros E; by rewrite E in Hnot).
  split; [|by apply (lane_step_mem_c l l')].
  pose proof (lane_step_before_barrier _ _ _ _ Hls Hnot) as Hbefore.
  unfold stuck_inv. cbn [lanes sh]. rewrite length_insert.
  apply lane_step_barrier in Hls
    as [(Hpc & -> & ->) | [(tok & Hpc & Hlt & -> & ->) | (Hb & _ & Hw & Hw')]].
  - (* an arrival: it is not the 64th *)
    assert (waits_in 0 l = false) as Hwl by (unfold waits_in; by rewrite Hpc).
    assert (waits_in 0 (set_pc l (BarrierWait (phase (barrier (sh s))))) = true) as Hwl'
      by (unfold waits_in; cbn; by rewrite Hph).
    rewrite Hwl, Hwl' in Hcnt.
    unfold barrier_arrive.
    destruct (pending (barrier (sh s)) - 1 =? 0) eqn:Hlast;
      [apply Z.eqb_eq in Hlast; lia|].
    cbn. split_and!; try done; [lia|].
    apply Forall_insert; [done|]. cbn. split; [done|]. intros tok [= <-]. done.
  - (* a release: there is none in the first phase *)
    lia.
  - (* any other statement *)
    rewrite Hb. rewrite Hw, Hw' in Hcnt. split_and!; try done; [lia|].
    apply Forall_insert; [done|]. split.
    + apply Hbefore. intros tok E. specialize (Hw tok). unfold waits_in in Hw.
      rewrite E, Nat.eqb_refl in Hw. discriminate.
    + intros tok E. specialize (Hw' tok). unfold waits_in in Hw'.
      rewrite E, Nat.eqb_refl in Hw'. discriminate.
Qed.

(** X4.  A cohort of fewer than 64 workers never gets through
    [cpu_mfma_f32_16x16x4f32]: started at [thread_func] with the barrier
    fresh, whatever their lane ids and the schedule, no worker is ever
    past the wait of line 42, so no call returns, no worker finishes and
    the array [c] is never written. *)
Theorem X4_partial_cohort_never_passes (s0 s : state) (sched : list nat) :
  (0 < length (lanes s0) < 64)%nat ->
  barrier (sh s0) = barrier_init ->
  Forall (fun l => exists i, pc l = ThreadEntry i) (lanes s0) ->
  run sched s0 = Ok s ->
  Forall (fun l => passed_barrier (pc l) = false) (lanes s) /\
  complete s = false /\
  mem_c (sh s) = mem_c (sh s0).
Proof.
  intros Hlen Hbar Hentry Hrun.
  assert (stuck_inv s /\ mem_c (sh s) = mem_c (sh s0) /\
          length (lanes s) = length (lanes s0)) as ((Hl & _ & _ & _ & Hall) & Hc & Hsame).
  { apply (run_invariant (fun s => stuck_inv s /\ mem_c (sh s) = mem_c (sh s0) /\
                                   length (lanes s) = length (lanes s0)) ) with sched s0;
      [| |done].
    - intros i s1 s2 (Hinv & Hc & Hn) Hstep.
      destruct (stuck_inv_step i s1 s2 Hinv Hstep) as [Hinv' Hc'].
      split_and!; [done | congruence |].
      apply step_inv in Hstep as (l & l' & sh' & _ & _ & ->). cbn.
      by rewrite length_insert.
    - split_and!; try done. unfold stuck_inv. rewrite Hbar. cbn.
      assert (Forall (fun l => waits_in 0 l = false) (lanes s0)) as Hnw.
      { eapply Forall_impl; [exact Hentry|]. intros l [i Hi]. unfold waits_in.
        by rewrite Hi. }
      rewrite (count_none _ _ Hnw). split_and!; try done; [lia|].
      eapply Forall_impl; [exact Hentry|]. intros l [i Hi]. rewrite Hi. done. }
  split_and!; try done.
  - eapply Forall_impl; [exact Hall|]. by intros l [H _].
  - destruct (lanes s) as [|l ls] eqn:Hls; [cbn in Hsame; lia|].
    apply Forall_cons in Hall as [[Hl0 _] _]. unfold complete. rewrite Hls. cbn.
    unfold is_finished. revert Hl0. by destruct (pc l).
Qed.

Lemma X4_partial_cohort_never_passes_witness :
  Forall (fun l => passed_barrier (pc l) = false) (lanes test_partial_waiting) /\
  complete test_partial_waiting = false /\
  mem_c (sh test_partial_waiting) = mem_c (sh test_partial).
Proof.
  apply (X4_partial_cohort_never_passes test_partial test_partial_waiting partial_schedule).
  - vm_compute. lia.
  - reflexivity.
  - vm_compute. repeat constructor; eexists; reflexivity.
  - vm_compute. reflexivity.
Defined.

(** ** The accesses of a statement *)







(** ** Races *)

Lemma loc_eqb_eq (x y : loc) : loc_eqb x y = true <-> x = y.
Proof.
  destruct x, y; cbn; rewrite ?Z.eqb_eq; split; try congruence; try discriminate.
Qed.

Lemma races_spec (w r : lane) :
  races w r = true <->
  exists x, x ∈ next_writes w /\ (x ∈ next_reads r \/ x ∈ next_writes r).
Proof.
  unfold races. rewrite existsb_exists. split.
  - intros (x & Hx & Hex). apply existsb_exists in Hex as (y & Hy & Hxy).
    apply loc_eqb_eq in Hxy as <-. exists x.
    rewrite <- !list_elem_of_In, elem_of_app in *. done.
  - intros (x & Hx & Hy). exists x. rewrite existsb_exists.
    rewrite <- list_elem_of_In. split; [done|]. exists x.
    rewrite <- list_elem_of_In, elem_of_app, loc_eqb_eq. done.
Qed.

(** X6.  The launch of [main] is free of data races: in every state it
    can reach, the next statement of a worker writes no element that the
    next statement of another worker reads or writes.  The writes to a
    tile are over, for every worker, before any worker reads a tile. *)
Theorem X6_launch_race_free (a b : list float) (c : list floatx4_t)
    (sched : list nat) (s : state) (i j : nat) (li lj : lane) :
  length a = 64%nat -> length b = 64%nat -> length c = 64%nat ->
  run sched (launch a b c) = Ok s ->
  lanes s !! i = Some li -> lanes s !! j = Some lj -> i <> j ->
  Forall (fun x => (x ∉ next_reads lj) /\ (x ∉ next_writes lj)) (next_writes li).
Proof.
  intros Ha Hb Hc Hrun Hli Hlj Hij. apply Forall_forall. intros x Hx.
  destruct (inv_run a b c Ha Hb Hc sched s Hrun) as [Hbar Hdata].
  pose proof Hbar as (_ & _ & Hok & _).
  pose proof Hdata as (_ & _ & _ & _ & _ & Hlanes).
  pose proof (proj1 (Forall_lookup _ _) Hok i li Hli) as Hoki.
  pose proof (proj1 (Forall_lookup _ _) Hok j lj Hlj) as Hokj.
  pose proof (lane_inv_tid a b c _ _ _ i li (Hlanes i li Hli)) as Hti.
  pose proof (lane_inv_tid a b c _ _ _ j lj (Hlanes j lj Hlj)) as Htj.
  destruct (Hlanes i li Hli) as [_ Hinvi]. destruct (Hlanes j lj Hlj) as [_ Hinvj].
  unfold next_writes, next_reads, lane_ok in *.
  destruct (pc li) eqn:Hpi; try (by apply elem_of_nil in Hx);
    apply list_elem_of_singleton in Hx as ->; rewrite Hti by done;
    destruct (pc lj) eqn:Hpj; try rewrite Htj by done;
    rewrite ?not_elem_of_cons; split_and?; try apply not_elem_of_nil;
    try (intros [=]; lia); try discriminate.
  all: destruct ((k <? 4) && (p <? 4));
    rewrite ?not_elem_of_cons; split_and?; try apply not_elem_of_nil;
    try discriminate; exfalso; lia.
Qed.

Lemma X6_launch_race_free_witness :
  Forall (fun x => (x ∉ next_reads (worker_of test_publishing 1)) /\
                   (x ∉ next_writes (worker_of test_publishing 1)))
         (next_writes (worker_of test_publishing 0)).
Proof.
  apply (X6_launch_race_free test_a test_b test_c (round_robin 3) test_publishing 0 1).
  - reflexivity.
  - reflexivity.
  - reflexivity.
  - vm_compute. reflexivity.
  - vm_compute. reflexivity.
  - vm_compute. reflexivity.
  - lia.
Defined.

(** X7.  A second call is not protected: when every worker calls the
    kernel twice, there is a schedule after which worker 0, in its second
    call, is about to write slot 0 of the A tile (line 38) while worker 1,
    still in the loop nest of its first call, is about to read that slot
    (line 48).  Nothing orders the tile reads of one call before the tile
    writes of the next. *)
Theorem X7_second_call_races (a b : list float) (c : list floatx4_t) :
  length a = 64%nat -> length b = 64%nat -> length c = 64%nat ->
  exists s w r,
    run second_call_schedule (launch_calls 1 a b c) = Ok s /\
    lanes s !! 0%nat = Some w /\ lanes s !! 1%nat = Some r /\
    round w = 1%nat /\ round r = 0%nat /\
    LocATile 0 ∈ next_writes w /\ LocATile 0 ∈ next_reads r.
Proof.
  intros Ha Hb Hc.
  assert (match run second_call_schedule (launch_calls 1 a b c) with
          | Ok s =>
              match lanes s !! 0%nat, lanes s !! 1%nat with
              | Some w, Some r =>
                  (round w =? 1)%nat && (round r =? 0)%nat &&
                  existsb (loc_eqb (LocATile 0)) (next_writes w) &&
                  existsb (loc_eqb (LocATile 0)) (next_reads r)
              | _, _ => false
              end
          | _ => false
          end = true) as H.
  { explode a Ha. explode b Hb. explode c Hc. vm_compute. reflexivity. }
  destruct (run _ _) as [s| | |]; try discriminate.
  destruct (lanes s !! 0%nat) as [w|] eqn:H0; [|discriminate].
  destruct (lanes s !! 1%nat) as [r|] eqn:H1; [|discriminate].
  rewrite !andb_true_iff, !Nat.eqb_eq, !existsb_exists in H.
  destruct H as [[[Hw Hr] (x & Hx & Hxe)] (y & Hy & Hye)].
  apply loc_eqb_eq in Hxe as <-. apply loc_eqb_eq in Hye as <-.
  apply list_elem_of_In in Hx, Hy. exists s, w, r. split_and!; done.
Qed.

Lemma X7_second_call_races_witness :
  exists s w r,
    run second_call_schedule (launch_calls 1 test_a test_b test_c) = Ok s /\
    lanes s !! 0%nat = Some w /\ lanes s !! 1%nat = Some r /\
    round w = 1%nat /\ round r = 0%nat /\
    LocATile 0 ∈ next_writes w /\ LocATile 0 ∈ next_reads r.
Proof. apply (X7_second_call_races test_a test_b test_c); reflexivity. Defined.

(** ** Several calls in sequence *)

Lemma calls_ok_step (n : nat) (l l' : lane) (s s' : shared_t) :
  lane_step l s = Ok (l', s') -> calls_ok n l -> calls_ok n l'.
Proof.
  unfold lane_step, calls_ok, is_finished. destruct l as [t q xa xb xc r m].
  cbn [pc tid arg_a arg_b arg_c round more_calls]. destruct q.
  - intros H; inv_ok; subst; cbn; intros [? _]; split; [lia | done].
  - intros H; inv_ok; subst; cbn; intros [? _]; split; [lia | done].
  - destruct (assert_tid _); [|discriminate].
    intros H; inv_ok; subst; cbn; intros [? _]; split; [lia | done].
  - intros H; inv_ok; subst; cbn; intros [? _]; split; [lia | done].
  - intros H; inv_ok; subst; cbn; intros [? _]; split; [lia | done].
  - destruct (barrier_arrive _).
    intros H; inv_ok; subst; cbn; intros [? _]; split; [lia | done].
  - destruct (barrier_released _ _); [|discriminate].
    intros H; inv_ok; subst; cbn; intros [? _]; split; [lia | done].
  - intros H; inv_ok; subst. unfold loop_step in Hx.
    destruct (k <? 4); [destruct (p <? 4)|]; inv_ok; subst; cbn;
      intros [? _]; split; lia || done.
  - intros H; inv_ok; subst. unfold after_call.
    destruct m; cbn; intros [? _]; split; lia || done.
  - discriminate.
Qed.

(** X8.  The barrier goes through exactly one phase per call: when every
    worker of a launch in which each worker calls the kernel n + 1 times
    has returned, each worker has completed n + 1 calls, the barrier has
    ended n + 1 phases and its pending count is back at 64. *)
Theorem X8_one_phase_per_call (n : nat) (a b : list float) (c : list floatx4_t)
    (sched : list nat) (s : state) :
  run sched (launch_calls n a b c) = Ok s -> complete s = true ->
  Forall (fun l => round l = S n) (lanes s) /\
  phase (barrier (sh s)) = S n /\
  pending (barrier (sh s)) = 64.
Proof.
  intros Hrun Hdone.
  pose proof (barrier_inv_run n a b c sched s Hrun) as (Hlen & _ & Hok & Hpend & _).
  assert (Forall (calls_ok n) (lanes s)) as Hcalls.
  { revert Hrun. apply (run_invariant (fun s => Forall (calls_ok n) (lanes s))).
    - intros i s1 s2 Hall Hstep.
      apply step_inv in Hstep as (l & l' & sh' & Hl & Hls & ->). cbn.
      apply Forall_insert; [done|].
      eapply calls_ok_step; [exact Hls|].
      exact (proj1 (Forall_lookup _ _) Hall i l Hl).
    - unfold launch_calls. cbn. apply Forall_fmap, Forall_forall. intros i _.
      unfold calls_ok, spawn, is_finished. cbn. split; [lia | done]. }
  unfold complete in Hdone. rewrite forallb_forall in Hdone.
  assert (forall l, l ∈ lanes s -> round l = S n /\ pc l = Finished) as Hfin.
  { intros l Hl.
    pose proof (proj1 (Forall_forall _ _) Hcalls l Hl) as [Hsum Hzero].
    apply list_elem_of_In, Hdone in Hl. rewrite Hl in Hsum. specialize (Hzero Hl).
    unfold is_finished in Hl. destruct (pc l) eqn:Hpc; try discriminate.
    split; [lia | done]. }
  assert (phase (barrier (sh s)) = S n) as Hph.
  { destruct (lookup_lt_is_Some_2 (lanes s) 0) as [l Hl]; [lia|].
    pose proof (proj1 (Forall_lookup _ _) Hok 0%nat l Hl) as Hokl.
    destruct (Hfin l) as [Hr Hpc]; [by eapply list_elem_of_lookup_2|].
    unfold lane_ok in Hokl. rewrite Hpc in Hokl. lia. }
  split_and!; [|done|].
  - apply Forall_forall. intros l Hl. by destruct (Hfin l Hl).
  - rewrite Hpend, count_none; [lia|].
    apply Forall_forall. intros l Hl. destruct (Hfin l Hl) as [_ Hpc].
    unfold waits_in. by rewrite Hpc.
Qed.

Lemma X8_one_phase_per_call_witness :
  Forall (fun l => round l = 2%nat) (lanes test_two_calls_final) /\
  phase (barrier (sh test_two_calls_final)) = 2%nat /\
  pending (barrier (sh test_two_calls_final)) = 64.
Proof.
  apply (X8_one_phase_per_call 1 test_a test_b test_c (round_robin 57)).
  - vm_compute. reflexivity.
  - vm_compute. reflexivity.
Defined.

(** ** One call, by the lane id and the state of the barrier *)

Lemma solo_step (q : lane) (s : shared_t) :
  step 0 (State [q] s) = r ← lane_step q s; Ok (State [fst r] (snd r)).
Proof. reflexivity. Qed.

(** a worker on its own runs the loop nest to its end *)
Lemma solo_loop_run (fuel : nat) (l : lane) (s : shared_t) (k p : Z) (r : floatx4_t) :
  pc l = Loop k p ->
  loop_rest fuel (tid l) (a_tile (tiles s)) (b_tile (tiles s)) k p (arg_c l) = Some (Ok r) ->
  exists n,
    run (replicate n 0%nat) (State [l] s)
    = Ok (State [Lane (tid l) KernelStore (arg_a l) (arg_b l) r (round l) (more_calls l)] s).
Proof.
  revert l k p. induction fuel as [|fuel IH]; intros l k p Hpc Hrest; [discriminate|].
  apply loop_rest_step in Hrest.
  assert (step 0 (State [l] s)
          = l' ← loop_step l (tiles s) k p; Ok (State [l'] s)) as Hstep.
  { rewrite solo_step. unfold lane_step. rewrite Hpc.
    by destruct (loop_step l (tiles s) k p). }
  unfold loop_step in Hstep.
  destruct (k <? 4); [destruct (p <? 4)|].
  - destruct (loop_body _ _ _ k p _) as [c'| | |] eqn:Hbody; try discriminate.
    cbn [mbind outcome_mbind obind] in Hstep.
    destruct (IH (Lane (tid l) (Loop k (p + 1)) (arg_a l) (arg_b l) c' (round l)
                       (more_calls l)) k (p + 1) eq_refl Hrest) as [n Hn].
    exists (S n). cbn [replicate run]. rewrite Hstep. exact Hn.
  - cbn [mbind outcome_mbind obind] in Hstep.
    destruct (IH (set_pc l (Loop (k + 1) 0)) (k + 1) 0 eq_refl Hrest) as [n Hn].
    exists (S n). cbn [replicate run]. rewrite Hstep. exact Hn.
  - exists 1%nat. cbn [replicate run]. rewrite Hstep.
    cbn [mbind outcome_mbind obind]. by injection Hrest as ->.
Qed.

(** X9.  One call of [cpu_mfma_f32_16x16x4f32] by a worker that no other
    worker interleaves with, on tiles of 64 elements, is decided by the
    lane id and by the barrier.  For [tid >= 64] the assertion of line 31
    fails; for [tid < 0] the assertion passes and line 38 writes outside
    the A tile (undefined behaviour).  For [0 <= tid < 64] the worker
    puts its operands in slot [tid] of the two tiles, changing no other
    slot, and arrives at the barrier; unless it is the last arrival the
    phase needs, the wait of line 42 does not return; if it is, the
    worker goes through the loop nest and comes back with the fragment
    the sequential [cpu_mfma_f32_16x16x4f32] gives, computed from the
    tiles so updated. *)
Theorem X9_call_by_lane_id (l : lane) (s : shared_t) :
  pc l = AssertTid ->
  length (a_tile (tiles s)) = 64%nat -> length (b_tile (tiles s)) = 64%nat ->
  (64 <= tid l -> run [0%nat] (State [l] s) = AssertFailed) /\
  (tid l < 0 -> run [0%nat; 0%nat] (State [l] s) = Undefined) /\
  (0 <= tid l < 64 ->
     run (replicate 4 0%nat) (State [l] s)
     = Ok (State [set_pc l (BarrierWait (phase (barrier s)))]
                 (Shared (tiles_after_publish l (tiles s))
                         (fst (barrier_arrive (barrier s)))
                         (mem_a s) (mem_b s) (mem_c s))) /\
     (pending (barrier s) <> 1 -> run (replicate 5 0%nat) (State [l] s) = Blocked) /\
     (pending (barrier s) = 1 ->
        exists c',
          cpu_mfma_f32_16x16x4f32 (tid l) (arg_a l) (arg_b l) (arg_c l) (tiles s)
          = Ok (c', tiles_after_publish l (tiles s)) /\
          c' = lane_result (a_tile (tiles_after_publish l (tiles s)))
                           (b_tile (tiles_after_publish l (tiles s))) (tid l) (arg_c l) /\
          run (replicate 26 0%nat) (State [l] s)
          = Ok (State [Lane (tid l) KernelStore (arg_a l) (arg_b l) c' (round l)
                            (more_calls l)]
                      (Shared (tiles_after_publish l (tiles s))
                              (fst (barrier_arrive (barrier s)))
                              (mem_a s) (mem_b s) (mem_c s))))).
Proof.
  intros Hpc Hla Hlb.
  assert (lane_step l s
          = if assert_tid (tid l) then Ok (set_pc l PublishA, s) else AssertFailed) as H1.
  { unfold lane_step. by rewrite Hpc. }
  unfold assert_tid, threads_per_subgroup in H1.
  split_and!.
  - intros Ht. cbn [run]. rewrite solo_step, H1.
    by rewrite (proj2 (Z.ltb_ge _ _)) by lia.
  - intros Ht. cbn [run]. rewrite solo_step, H1.
    rewrite (proj2 (Z.ltb_lt _ _)) by lia. cbn [mbind outcome_mbind obind fst snd].
    rewrite solo_step. unfold lane_step. cbn [pc set_pc tid arg_a].
    by rewrite (store_undefined (a_tile (tiles s))) by lia.
  - intros Ht. rewrite (proj2 (Z.ltb_lt _ _)) in H1 by lia.
    assert (run (replicate 4 0%nat) (State [l] s)
            = Ok (State [set_pc l (BarrierWait (phase (barrier s)))]
                        (Shared (tiles_after_publish l (tiles s))
                                (fst (barrier_arrive (barrier s)))
                                (mem_a s) (mem_b s) (mem_c s)))) as H4.
    { cbn [replicate run]. rewrite solo_step, H1.
      cbn [mbind outcome_mbind obind fst snd].
      rewrite solo_step. unfold lane_step at 1. cbn [pc set_pc tid arg_a arg_b].
      rewrite (store_ok (a_tile (tiles s))) by lia.
      cbn [mbind outcome_mbind obind fst snd].
      rewrite solo_step. unfold lane_step at 1.
      cbn [pc set_pc tid arg_a arg_b set_tiles tiles a_tile b_tile].
      rewrite (store_ok (b_tile (tiles s))) by lia.
      cbn [mbind outcome_mbind obind fst snd].
      rewrite solo_step. unfold lane_step at 1.
      cbn [pc set_pc tid arg_a arg_b set_tiles tiles a_tile b_tile barrier].
      unfold barrier_arrive. destruct (pending (barrier s) - 1 =? 0); reflexivity. }
    split_and!; [exact H4 | |].
    + intros Hp. change (replicate 5 0%nat) with (replicate 4 0%nat ++ [0%nat]).
      rewrite run_app, H4. cbn [mbind outcome_mbind obind run].
      rewrite solo_step. unfold lane_step.
      cbn [pc set_pc barrier]. unfold barrier_arrive, barrier_released.
      rewrite (proj2 (Z.eqb_neq _ _)) by lia. cbn [fst phase].
      by rewrite Nat.ltb_irrefl.
    + intros Hp. eexists. split; [|split; [reflexivity|]].
      * unfold cpu_mfma_f32_16x16x4f32, assert_tid, threads_per_subgroup, publish.
        rewrite (proj2 (Z.ltb_lt _ _)) by lia.
        rewrite (store_ok (a_tile (tiles s))), (store_ok (b_tile (tiles s))) by lia.
        cbn [mbind outcome_mbind obind a_tile b_tile].
        rewrite mfma_loops_ok by (rewrite ?length_insert; done || lia). reflexivity.
      * set (T' := tiles_after_publish l (tiles s)).
        set (s5 := Shared T' (fst (barrier_arrive (barrier s))) (mem_a s) (mem_b s)
                          (mem_c s)).
        assert (run (replicate 5 0%nat) (State [l] s)
                = Ok (State [set_pc l (Loop 0 0)] s5)) as H5.
        { change (replicate 5 0%nat) with (replicate 4 0%nat ++ [0%nat]).
          rewrite run_app, H4. cbn [mbind outcome_mbind obind run].
          rewrite solo_step. unfold lane_step. subst s5.
          cbn [pc set_pc barrier]. unfold barrier_arrive, barrier_released.
          rewrite Hp. change (1 - 1 =? 0) with true. cbn [fst phase].
          rewrite (proj2 (Nat.ltb_lt (phase (barrier s)) (S (phase (barrier s)))))
            by lia.
          reflexivity. }
        destruct (solo_loop_run 21 (set_pc l (Loop 0 0)) s5 0 0
                    (lane_result (a_tile T') (b_tile T') (tid l) (arg_c l)) eq_refl)
          as [n Hn].
        { cbn [tid arg_c set_pc tiles s5]. rewrite loop_rest_all.
          rewrite mfma_loops_ok; [done | | | done];
            unfold T', tiles_after_publish; cbn [a_tile b_tile];
            by rewrite length_insert. }
        pose proof (run_steps_left _ _ _ Hn) as Hlen.
        rewrite length_replicate in Hlen. cbn in Hlen.
        assert (n = 21%nat) as -> by lia.
        change (replicate 26 0%nat) with (replicate 5 0%nat ++ replicate 21 0%nat).
        rewrite run_app, H5. cbn [mbind outcome_mbind obind]. exact Hn.
Qed.

Lemma X9_call_by_lane_id_witness :
  exists c',
    cpu_mfma_f32_16x16x4f32 (tid (worker_of test_last_lane 63))
      (arg_a (worker_of test_last_lane 63)) (arg_b (worker_of test_last_lane 63))
      (arg_c (worker_of test_last_lane 63)) (tiles (sh test_last_lane))
    = Ok (c', tiles_after_publish (worker_of test_last_lane 63) (tiles (sh test_last_lane))) /\
    c' = lane_result
           (a_tile (tiles_after_publish (worker_of test_last_lane 63)
                      (tiles (sh test_last_lane))))
           (b_tile (tiles_after_publish (worker_of test_last_lane 63)
                      (tiles (sh test_last_lane))))
           (tid (worker_of test_last_lane 63)) (arg_c (worker_of test_last_lane 63)) /\
    run (replicate 26 0%nat) (State [worker_of test_last_lane 63] (sh test_last_lane))
    = Ok (State [Lane (tid (worker_of test_last_lane 63)) KernelStore
                      (arg_a (worker_of test_last_lane 63))
                      (arg_b (worker_of test_last_lane 63)) c'
                      (round (worker_of test_last_lane 63))
                      (more_calls (worker_of test_last_lane 63))]
                (Shared (tiles_after_publish (worker_of test_last_lane 63)
                           (tiles (sh test_last_lane)))
                        (fst (barrier_arrive (barrier (sh test_last_lane))))
                        (mem_a (sh test_last_lane)) (mem_b (sh test_last_lane))
                        (mem_c (sh test_last_lane)))).
Proof.
  apply (X9_call_by_lane_id (worker_of test_last_lane 63) (sh test_last_lane)).
  - vm_compute. reflexivity.
  - vm_compute. reflexivity.
  - vm_compute. reflexivity.
  - vm_compute. split; [discriminate | reflexivity].
  - vm_compute. reflexivity.
Defined.

(** ** Loops over an index range *)

Lemma seqZ_step (lo : Z) (n : nat) :
  seqZ lo (Z.of_nat (S n)) = lo :: seqZ (lo + 1) (Z.of_nat n).
Proof.
  rewrite seqZ_cons by lia. f_equal. f_equal; lia.
Qed.

(** a loop whose every iteration keeps an invariant runs to its end and
    establishes the invariant at the end of the range *)
Lemma for_each_seqZ_inv {A : Type} (P : Z -> A -> Prop) (body : Z -> A -> outcome A)
    (n : nat) (lo : Z) (x : A) :
  P lo x ->
  (forall i y, lo <= i < lo + Z.of_nat n -> P i y ->
     exists y', body i y = Ok y' /\ P (i + 1) y') ->
  exists y', for_each (seqZ lo (Z.of_nat n)) body x = Ok y' /\ P (lo + Z.of_nat n) y'.
Proof.
  revert lo x. induction n as [|n IH]; intros lo x Hx Hbody.
  - exists x. cbn. split; [done|]. by rewrite Z.add_0_r.
  - rewrite seqZ_step. cbn [for_each].
    destruct (Hbody lo x) as (y & Hy & HPy); [lia | done |].
    rewrite Hy. cbn [mbind outcome_mbind obind].
    destruct (IH (lo + 1) y HPy) as (y' & Hy' & HP').
    { intros i z Hi. apply Hbody. lia. }
    exists y'. split; [done|]. by replace (lo + Z.of_nat (S n)) with (lo + 1 + Z.of_nat n) by lia.
Qed.

(** a loop that keeps an invariant up to an iteration that is undefined
    under the invariant is undefined *)
Lemma for_each_seqZ_undefined {A : Type} (P : Z -> A -> Prop)
    (body : Z -> A -> outcome A) (n : nat) (lo stop : Z) (x : A) :
  P lo x ->
  (forall i y, lo <= i < stop -> P i y -> exists y', body i y = Ok y' /\ P (i + 1) y') ->
  lo <= stop < lo + Z.of_nat n ->
  (forall y, P stop y -> body stop y = Undefined) ->
  for_each (seqZ lo (Z.of_nat n)) body x = Undefined.
Proof.
  revert lo x. induction n as [|n IH]; intros lo x Hx Hbody Hstop Hfail; [lia|].
  rewrite seqZ_step. cbn [for_each].
  destruct (decide (lo = stop)) as [->|Hne].
  - by rewrite Hfail.
  - destruct (Hbody lo x) as (y & Hy & HPy); [lia | done |].
    rewrite Hy. cbn [mbind outcome_mbind obind].
    apply IH; [done | | lia | done]. intros i z Hi. apply Hbody. lia.
Qed.

(** ** [init_test_matrices] on arrays of any size *)

Lemma lookup_store_step {X : Type} (l0 l : list X) (i : Z) (v : Z -> X) :
  0 <= i < Z.of_nat (length l) ->
  (forall j : nat, l !! j = if Z.of_nat j <? i then Some (v (Z.of_nat j)) else l0 !! j) ->
  forall j : nat,
    <[Z.to_nat i := v i]> l !! j
    = if Z.of_nat j <? i + 1 then Some (v (Z.of_nat j)) else l0 !! j.
Proof.
  intros Hi Hl j. destruct (decide (j = Z.to_nat i)) as [->|Hne].
  - rewrite list_lookup_insert_eq by lia.
    rewrite (proj2 (Z.ltb_lt _ _)) by lia. by rewrite Z2Nat.id by lia.
  - rewrite list_lookup_insert_ne by done. rewrite Hl.
    destruct (Z.of_nat j <? i) eqn:H1; [apply Z.ltb_lt in H1 | apply Z.ltb_ge in H1].
    + by rewrite (proj2 (Z.ltb_lt _ _)) by lia.
    + by rewrite (proj2 (Z.ltb_ge _ _)) by lia.
Qed.

(** X10.  [init_test_matrices] needs 64 elements in each of its three
    arrays.  When they are there it returns, whatever the arrays held:
    elements 0..63 of [a] and of [b] are 1 where i / 16 == i % 4 and 0
    elsewhere, element i of [c] is {i, 0, 0, 0}, and the sizes and the
    elements from index 64 on are as before.  When one of the arrays is
    shorter, the loop writes past its end (undefined behaviour). *)
Theorem X10_init_test_matrices_bounds (a b : list float) (c : list floatx4_t) :
  ((64 <= length a)%nat -> (64 <= length b)%nat -> (64 <= length c)%nat ->
   exists a' b' c',
     init_test_matrices a b c = Ok (a', b', c') /\
     length a' = length a /\ length b' = length b /\ length c' = length c /\
     forall j : nat,
       a' !! j = (if Z.of_nat j <? 64
                  then Some (float_of_bool (Z.quot (Z.of_nat j) 16 =? Z.rem (Z.of_nat j) 4))
                  else a !! j) /\
       b' !! j = (if Z.of_nat j <? 64
                  then Some (float_of_bool (Z.quot (Z.of_nat j) 16 =? Z.rem (Z.of_nat j) 4))
                  else b !! j) /\
       c' !! j = (if Z.of_nat j <? 64
                  then Some (Floatx4 (float_of_int (Z.of_nat j)) fzero fzero fzero)
                  else c !! j)) /\
  ((length a < 64)%nat \/ (length b < 64)%nat \/ (length c < 64)%nat ->
   init_test_matrices a b c = Undefined).
Proof.
  set (va := fun i : Z => float_of_bool (Z.quot i 16 =? Z.rem i 4)).
  set (vc := fun i : Z => Floatx4 (float_of_int i) (float_of_int 0) (float_of_int 0)
                                  (float_of_int 0)).
  set (P := fun (i : Z) (m : list float * list float * list floatx4_t) =>
    length (fst (fst m)) = length a /\ length (snd (fst m)) = length b /\
    length (snd m) = length c /\
    forall j : nat,
      fst (fst m) !! j = (if Z.of_nat j <? i then Some (va (Z.of_nat j)) else a !! j) /\
      snd (fst m) !! j = (if Z.of_nat j <? i then Some (va (Z.of_nat j)) else b !! j) /\
      snd m !! j = (if Z.of_nat j <? i then Some (vc (Z.of_nat j)) else c !! j)).
  assert (P 0 (a, b, c)) as HP0.
  { unfold P. cbn. split_and!; try done. intros j.
    by rewrite (proj2 (Z.ltb_ge _ _)) by lia. }
  assert (forall lim i m,
            Z.of_nat lim <= Z.of_nat (length a) -> Z.of_nat lim <= Z.of_nat (length b) ->
            Z.of_nat lim <= Z.of_nat (length c) ->
            0 <= i < Z.of_nat lim -> P i m ->
            exists m', init_body i m = Ok m' /\ P (i + 1) m') as Hstep.
  { intros lim i [[a1 b1] c1] Hlima Hlimb Hlimc Hi (Hla & Hlb & Hlc & Hslots).
    cbn [fst snd] in *. unfold init_body. cbn [fst snd].
    rewrite (store_ok a1), (store_ok b1), (store_ok c1) by lia.
    cbn [mbind outcome_mbind obind]. eexists. split; [done|].
    unfold P. cbn [fst snd]. rewrite !length_insert. split_and!; try done.
    intros j. split_and!.
    - apply (lookup_store_step a a1 i va); [lia|]. intros j'. apply Hslots.
    - apply (lookup_store_step b b1 i va); [lia|]. intros j'. apply Hslots.
    - apply (lookup_store_step c c1 i vc); [lia|]. intros j'. apply Hslots. }
  split.
  - intros Ha Hb Hc. unfold init_test_matrices.
    destruct (for_each_seqZ_inv P init_body 64 0 (a, b, c) HP0)
      as ([[a' b'] c'] & Hrun & (Hla & Hlb & Hlc & Hslots)).
    { intros i m Hi. apply (Hstep 64%nat); lia. }
    exists a', b', c'. change (Z.of_nat 64) with 64 in Hrun.
    split_and!; try done.
  - intros Hshort. unfold init_test_matrices.
    set (lim := (length a `min` (length b `min` length c))%nat).
    apply (for_each_seqZ_undefined P init_body 64 0 (Z.of_nat lim) (a, b, c)).
    + done.
    + intros i m Hi. apply (Hstep lim); lia.
    + lia.
    + intros [[a1 b1] c1] (Hla & Hlb & Hlc & _). cbn [fst snd] in *.
      unfold init_body. cbn [fst snd].
      destruct (decide (lim < length a)%nat) as [Hlta|Hlta];
        [|by rewrite (store_undefined a1) by lia].
      rewrite (store_ok a1) by lia. cbn [mbind outcome_mbind obind].
      destruct (decide (lim < length b)%nat) as [Hltb|Hltb];
        [|by rewrite (store_undefined b1) by lia].
      rewrite (store_ok b1) by lia. cbn [mbind outcome_mbind obind].
      by rewrite (store_undefined c1) by lia.
Qed.

(** ** Printing *)

Lemma print_each_ext (idx : list Z) (f g : Z -> outcome (list token)) :
  (forall i, i ∈ idx -> f i = g i) -> print_each idx f = print_each idx g.
Proof.
  induction idx as [|i idx IH]; intros Hfg; cbn; [done|].
  rewrite Hfg by left. rewrite IH; [done|]. intros j Hj. apply Hfg. by right.
Qed.

Lemma print_each_ok_or_undefined (idx : list Z) (f : Z -> outcome (list token)) :
  (forall i, i ∈ idx -> f i = Undefined \/ exists o, f i = Ok o) ->
  print_each idx f = Undefined \/ exists o, print_each idx f = Ok o.
Proof.
  induction idx as [|i idx IH]; intros Hf; cbn; [eauto|].
  destruct (Hf i) as [-> | [o ->]]; [by left | by left |]. cbn.
  destruct IH as [-> | [o' ->]]; [intros j Hj; apply Hf; by right | by left |].
  cbn. eauto.
Qed.

Lemma print_each_undefined (idx : list Z) (f : Z -> outcome (list token)) (i : Z) :
  (forall j, j ∈ idx -> f j = Undefined \/ exists o, f j = Ok o) ->
  i ∈ idx -> f i = Undefined -> print_each idx f = Undefined.
Proof.
  induction idx as [|j idx IH]; intros Hf Hi Hfi; [by apply elem_of_nil in Hi|].
  cbn. apply elem_of_cons in Hi as [<- | Hi]; [by rewrite Hfi|].
  destruct (Hf j) as [-> | [o ->]]; [by left | done |]. cbn.
  rewrite IH; [done | | done | done]. intros j' Hj'. apply Hf. by right.
Qed.

Lemma mbind_arg {A B : Type} (m1 m2 : outcome A) (f : A -> outcome B) :
  m1 = m2 -> m1 ≫= f = m2 ≫= f.
Proof. by intros ->. Qed.

Lemma load_ok_or_undefined {X : Type} (l : list X) (i : Z) :
  load l i = Undefined \/ exists x, load l i = Ok x.
Proof. unfold load. destruct (in_bounds l i); [destruct (l !! _)|]; eauto. Qed.

Lemma load_take {X : Type} (l : list X) (n : nat) (i : Z) :
  (n <= length l)%nat -> 0 <= i < Z.of_nat n -> load (take n l) i = load l i.
Proof.
  intros Hn Hi. unfold load, in_bounds. rewrite length_take.
  rewrite !(proj2 (Z.leb_le _ _)) by lia. rewrite !(proj2 (Z.ltb_lt _ _)) by lia.
  cbn. by rewrite lookup_take_lt by lia.
Qed.

Lemma load_short {X : Type} (l : list X) (i : Z) :
  Z.of_nat (length l) <= i -> load l i = Undefined.
Proof.
  intros Hi. unfold load, in_bounds. rewrite (proj2 (Z.ltb_ge _ _)) by lia.
  by rewrite andb_false_r.
Qed.

Lemma elem_of_seqZ_0 (i n : Z) : i ∈ seqZ 0 n <-> 0 <= i < n.
Proof. rewrite elem_of_seqZ. lia. Qed.

(** the output of [print_b_matrix] on an array of exactly 64 elements,
    followed in memory by anything *)
Lemma print_b_matrix_64 (label : string) (b rest : list float) :
  length b = 64%nat ->
  print_b_matrix label b
  = Ok (Label label :: Newline ::
        flat_map (fun k => (Num <$> take 16 (drop (16 * k) (b ++ rest))) ++ [Newline])
                 (seq 0 4)
        ++ [Newline]).
Proof. intros Hb. explode b Hb. vm_compute. reflexivity. Qed.

(** X11.  [print_b_matrix] prints the label, then elements 0..63 of [b]
    in storage order, 16 to a line, on four lines, then an empty line; it
    reads nothing beyond element 63.  On an array of fewer than 64
    elements it reads past the end (undefined behaviour). *)
Theorem X11_print_b_matrix (label : string) (b : list float) :
  ((64 <= length b)%nat ->
   print_b_matrix label b
   = Ok (Label label :: Newline ::
         flat_map (fun k => (Num <$> take 16 (drop (16 * k) b)) ++ [Newline]) (seq 0 4)
         ++ [Newline])) /\
  ((length b < 64)%nat -> print_b_matrix label b = Undefined).
Proof.
  split; intros Hlen.
  - transitivity (print_b_matrix label (take 64 b)).
    + unfold print_b_matrix. apply mbind_arg, print_each_ext. intros k Hk.
      apply elem_of_seqZ_0 in Hk. apply mbind_arg, print_each_ext. intros n Hn.
      apply elem_of_seqZ_0 in Hn. by rewrite load_take by lia.
    + rewrite (print_b_matrix_64 label (take 64 b) (drop 64 b)).
      * by rewrite take_drop.
      * rewrite length_take. lia.
  - unfold print_b_matrix.
    rewrite (print_each_undefined _ _ 3); [done | | by apply elem_of_seqZ_0 |].
    + intros k _.
      destruct (print_each_ok_or_undefined (seqZ 0 16)
                  (fun n => x ← load b (16 * k + n); Ok [Num x])) as [-> | [o ->]];
        [|by left | right; cbn; eauto].
      intros n _. destruct (load_ok_or_undefined b (16 * k + n)) as [-> | [x ->]];
        [by left | right; cbn; eauto].
    + rewrite (print_each_undefined _ _ 15); [done | | by apply elem_of_seqZ_0 |].
      * intros n _. destruct (load_ok_or_undefined b (16 * 3 + n)) as [-> | [x ->]];
          [by left | right; cbn; eauto].
      * by rewrite load_short by lia.
Qed.

Lemma print_a_matrix_64 (label : string) (a rest : list float) :
  length a = 64%nat ->
  exists out,
    print_a_matrix label a = Ok out /\
    length (numbers out) = 64%nat /\ line_feeds out = 18%nat /\
    forall m k : nat, (m < 16)%nat -> (k < 4)%nat ->
      numbers out !! (4 * m + k)%nat = (a ++ rest) !! (16 * k + m)%nat.
Proof.
  intros Ha. explode a Ha. eexists. split; [vm_compute; reflexivity|].
  split; [reflexivity|]. split; [reflexivity|]. intros m k Hm Hk.
  do 16 (destruct m as [|m]; [do 4 (destruct k as [|k]; [reflexivity|]); lia|]). lia.
Qed.

(** the text [print_a_matrix] prints for an array of exactly 64 elements,
    followed in memory by anything *)
Lemma print_a_matrix_text_64 (label : string) (a rest : list float) :
  length a = 64%nat ->
  print_a_matrix label a
  = Ok (Label label :: Newline ::
        flat_map (fun m => ((fun k => Num ((a ++ rest) !!! (16 * k + m)%nat)) <$> seq 0 4)
                           ++ [Newline])
                 (seq 0 16)
        ++ [Newline]).
Proof. intros Ha. explode a Ha. vm_compute. reflexivity. Qed.

(** X12.  [print_a_matrix] prints the label on a line of its own, then 16
    lines of 4 numbers, then an empty line; the number at place k of line
    m is a[16 * k + m], so each of the elements 0..63 is shown once and
    nothing beyond element 63 is read.  On an array of fewer than 64
    elements it reads past the end (undefined behaviour). *)
Theorem X12_print_a_matrix (label : string) (a : list float) :
  ((64 <= length a)%nat ->
   exists out,
     print_a_matrix label a = Ok out /\
     out = Label label :: Newline ::
           flat_map (fun m => ((fun k => Num (a !!! (16 * k + m)%nat)) <$> seq 0 4)
                              ++ [Newline])
                    (seq 0 16)
           ++ [Newline] /\
     length (numbers out) = 64%nat /\ line_feeds out = 18%nat /\
     forall m k : nat, (m < 16)%nat -> (k < 4)%nat ->
       numbers out !! (4 * m + k)%nat = a !! (16 * k + m)%nat) /\
  ((length a < 64)%nat -> print_a_matrix label a = Undefined).
Proof.
  split; intros Hlen.
  - assert (print_a_matrix label a = print_a_matrix label (take 64 a)) as ->.
    { unfold print_a_matrix. apply mbind_arg, print_each_ext. intros m Hm.
      apply elem_of_seqZ_0 in Hm. apply mbind_arg, print_each_ext. intros k Hk.
      apply elem_of_seqZ_0 in Hk. by rewrite load_take by lia. }
    destruct (print_a_matrix_64 label (take 64 a) (drop 64 a)) as (out & H1 & H2 & H3 & H4).
    { rewrite length_take. lia. }
    assert (length (take 64 a) = 64%nat) as Htake by (rewrite length_take; lia).
    pose proof (print_a_matrix_text_64 label (take 64 a) (drop 64 a) Htake) as Htext.
    rewrite take_drop in H4, Htext. rewrite H1 in Htext. apply Ok_inj in Htext.
    exists out. split_and!; done.
  - unfold print_a_matrix.
    rewrite (print_each_undefined _ _ 15); [done | | by apply elem_of_seqZ_0 |].
    + intros m _.
      destruct (print_each_ok_or_undefined (seqZ 0 4)
                  (fun k => x ← load a (16 * k + m); Ok [Num x])) as [-> | [o ->]];
        [|by left | right; cbn; eauto].
      intros k _. destruct (load_ok_or_undefined a (16 * k + m)) as [-> | [x ->]];
        [by left | right; cbn; eauto].
    + rewrite (print_each_undefined _ _ 3); [done | | by apply elem_of_seqZ_0 |].
      * intros k _. destruct (load_ok_or_undefined a (16 * k + 15)) as [-> | [x ->]];
          [by left | right; cbn; eauto].
      * by rewrite load_short by lia.
Qed.

Lemma vget_ok_or_undefined (c : floatx4_t) (p : Z) :
  vget c p = Undefined \/ exists x, vget c p = Ok x.
Proof. unfold vget. repeat case_match; eauto. Qed.

Lemma print_c_body_ok_or_undefined (c : list floatx4_t) (i p : Z) :
  (ci ← load c i; x ← vget ci p; Ok [Num x]) = Undefined \/
  exists o, (ci ← load c i; x ← vget ci p; Ok [Num x]) = Ok o.
Proof.
  destruct (load_ok_or_undefined c i) as [-> | [ci ->]]; [by left|]. cbn.
  destruct (vget_ok_or_undefined ci p) as [-> | [x ->]]; [by left | right; cbn; eauto].
Qed.

Lemma print_c_matrix_64 (label : string) (c rest : list floatx4_t) :
  length c = 64%nat ->
  exists out,
    print_c_matrix label c = Ok out /\
    length (numbers out) = 256%nat /\ line_feeds out = 18%nat /\
    forall t p : nat, (t < 64)%nat -> (p < 4)%nat ->
      numbers out !! Z.to_nat (16 * (lane_m (Z.of_nat t) + Z.of_nat p) + lane_n (Z.of_nat t))
      = (fun ci => vtotal ci (Z.of_nat p)) <$> (c ++ rest) !! t.
Proof.
  intros Hc. explode c Hc. eexists. split; [vm_compute; reflexivity|].
  split; [reflexivity|]. split; [reflexivity|]. intros t p Ht Hp.
  do 64 (destruct t as [|t]; [do 4 (destruct p as [|p]; [reflexivity|]); lia|]). lia.
Qed.

(** the text [print_c_matrix] prints for an array of exactly 64
    fragments, followed in memory by anything *)
Lemma print_c_matrix_text_64 (label : string) (c rest : list floatx4_t) :
  length c = 64%nat ->
  print_c_matrix label c
  = Ok (Label label :: Newline ::
        flat_map (fun r => ((fun n => Num (vtotal ((c ++ rest) !!! (16 * (r / 4) + n)%nat)
                                                  (Z.of_nat (r mod 4))))
                              <$> seq 0 16) ++ [Newline])
                 (seq 0 16)
        ++ [Newline]).
Proof. intros Hc. explode c Hc. vm_compute. reflexivity. Qed.

(** X13.  [print_c_matrix] prints the label on a line of its own, then 16
    lines of 16 numbers, then an empty line: the number at place n of
    line r is component r % 4 of fragment 16 * (r / 4) + n.  This lays
    the fragments out as [cpu_mfma_f32_16x16x4f32] assigns them:
    component p of the fragment of lane t is the number in line m + p,
    column n, for the coordinates m = 4 * (t / 16), n = t % 16 of the
    lane, so every component of fragments 0..63 is shown once.  On an
    array of fewer than 64 fragments it reads past the end (undefined
    behaviour). *)
Theorem X13_print_c_matrix (label : string) (c : list floatx4_t) :
  ((64 <= length c)%nat ->
   exists out,
     print_c_matrix label c = Ok out /\
     out = Label label :: Newline ::
           flat_map (fun r => ((fun n => Num (vtotal (c !!! (16 * (r / 4) + n)%nat)
                                                     (Z.of_nat (r mod 4))))
                                 <$> seq 0 16) ++ [Newline])
                    (seq 0 16)
           ++ [Newline] /\
     length (numbers out) = 256%nat /\ line_feeds out = 18%nat /\
     forall t p : nat, (t < 64)%nat -> (p < 4)%nat ->
       numbers out !! Z.to_nat (16 * (lane_m (Z.of_nat t) + Z.of_nat p) + lane_n (Z.of_nat t))
       = (fun ci => vtotal ci (Z.of_nat p)) <$> c !! t) /\
  ((length c < 64)%nat -> print_c_matrix label c = Undefined).
Proof.
  split; intros Hlen.
  - assert (print_c_matrix label c = print_c_matrix label (take 64 c)) as ->.
    { unfold print_c_matrix. apply mbind_arg, print_each_ext. intros m Hm.
      apply print_each_ext. intros p Hp.
      apply mbind_arg, print_each_ext. intros n Hn.
      apply elem_of_seqZ_0 in Hn. rewrite load_take; [done | lia |].
      rewrite !elem_of_cons, elem_of_nil in Hm. lia. }
    destruct (print_c_matrix_64 label (take 64 c) (drop 64 c)) as (out & H1 & H2 & H3 & H4).
    { rewrite length_take. lia. }
    assert (length (take 64 c) = 64%nat) as Htake by (rewrite length_take; lia).
    pose proof (print_c_matrix_text_64 label (take 64 c) (drop 64 c) Htake) as Htext.
    rewrite take_drop in H4, Htext. rewrite H1 in Htext. apply Ok_inj in Htext.
    exists out. split_and!; done.
  - unfold print_c_matrix.
    assert (forall m p,
              print_each (seqZ 0 16)
                (fun n => ci ← load c (4 * m + n); x ← vget ci p; Ok [Num x])
              ≫= (fun row => Ok (row ++ [Newline])) = Undefined \/
              exists o,
                print_each (seqZ 0 16)
                  (fun n => ci ← load c (4 * m + n); x ← vget ci p; Ok [Num x])
                ≫= (fun row => Ok (row ++ [Newline])) = Ok o) as Hrow.
    { intros m p.
      destruct (print_each_ok_or_undefined (seqZ 0 16)
                  (fun n => ci ← load c (4 * m + n); x ← vget ci p; Ok [Num x]))
        as [-> | [o ->]]; [|by left | right; cbn; eauto].
      intros n _. apply print_c_body_ok_or_undefined. }
    rewrite (print_each_undefined _ _ 12); [done | | |].
    + intros m _. apply print_each_ok_or_undefined. intros p _. apply Hrow.
    + rewrite !elem_of_cons. tauto.
    + rewrite (print_each_undefined _ _ 0); [done | | by apply elem_of_seqZ_0 |].
      * intros p _. apply Hrow.
      * rewrite (print_each_undefined _ _ 15); [done | | by apply elem_of_seqZ_0 |].
        -- intros n _. apply print_c_body_ok_or_undefined.
        -- by rewrite load_short by lia.
Qed.

(** ** What [main] prints *)

Lemma length_mfma_all (a b : list float) (c : list floatx4_t) :
  length (mfma_all a b c) = length c.
Proof. unfold mfma_all. apply length_imap. Qed.

Lemma lookup_total_Some {X : Type} `{Inhabited X} (l : list X) (i : nat) (x : X) :
  l !! i = Some x -> l !!! i = x.
Proof. intros Hx. by rewrite list_lookup_total_alt, Hx. Qed.

(** the numbers [print_c_matrix] shows are the matrix [C_elem] reads *)
Lemma printed_C_elem (out : list token) (c : list floatx4_t) (row col : Z) :
  length c = 64%nat ->
  (forall t p : nat, (t < 64)%nat -> (p < 4)%nat ->
     numbers out !! Z.to_nat (16 * (lane_m (Z.of_nat t) + Z.of_nat p) + lane_n (Z.of_nat t))
     = (fun ci => vtotal ci (Z.of_nat p)) <$> c !! t) ->
  0 <= row < 16 -> 0 <= col < 16 ->
  printed out (16 * row + col) = C_elem c row col.
Proof.
  intros Hc Hout Hrow Hcol. unfold printed, C_elem.
  remember (4 * (4 * (row / 4)) + col) as t eqn:Et.
  assert (0 <= t < 64) as Ht by (subst t; Z.div_mod_to_equations; lia).
  assert (0 <= row mod 4 < 4) as Hp by (Z.div_mod_to_equations; lia).
  assert (16 * (lane_m t + row mod 4) + lane_n t = 16 * row + col) as Hidx.
  { unfold lane_m, lane_n. subst t.
    Z.quot_rem_to_equations; Z.div_mod_to_equations; lia. }
  clear Et.
  specialize (Hout (Z.to_nat t) (Z.to_nat (row mod 4))).
  rewrite !Z2Nat.id in Hout by lia. rewrite Hidx in Hout.
  destruct (lookup_lt_is_Some_2 c (Z.to_nat t)) as [ci Hci]; [lia|].
  rewrite Hci in Hout. cbn in Hout.
  rewrite (lookup_total_Some _ _ _ Hci).
  apply lookup_total_Some. apply Hout; lia.
Qed.

(** X14.  Printing composes with the instruction: when the array [c]
    after one instruction on [a], [b], [c] is printed by
    [print_c_matrix], the number at row [row], column [col] is the number
    [print_c_matrix] shows there for [c], to which the four products of
    the numbers [print_a_matrix] shows in row [row] of [a] and
    [print_b_matrix] shows in column [col] of [b] have been added one by
    one, [k] increasing. *)
Theorem X14_printed_result (la lb lc lr : string) (a b : list float)
    (c : list floatx4_t) :
  length a = 64%nat -> length b = 64%nat -> length c = 64%nat ->
  exists oa ob oc ores,
    print_a_matrix la a = Ok oa /\
    print_b_matrix lb b = Ok ob /\
    print_c_matrix lc c = Ok oc /\
    print_c_matrix lr (mfma_all a b c) = Ok ores /\
    forall row col, 0 <= row < 16 -> 0 <= col < 16 ->
      printed ores (16 * row + col)
      = fold_left (fun acc k => fadd acc (fmul (printed oa (4 * row + k))
                                               (printed ob (16 * k + col))))
                  (seqZ 0 4) (printed oc (16 * row + col)).
Proof.
  intros Ha Hb Hc.
  destruct (print_a_matrix_64 la a [] Ha) as (oa & Hoa & _ & _ & Hna).
  pose proof (print_b_matrix_64 lb b [] Hb) as Hob.
  destruct (print_c_matrix_64 lc c [] Hc) as (oc & Hoc & _ & _ & Hnc).
  destruct (print_c_matrix_64 lr (mfma_all a b c) []) as (ores & Hores & _ & _ & Hnr).
  { by rewrite length_mfma_all. }
  rewrite app_nil_r in Hna, Hnc, Hnr.
  eexists oa, _, oc, ores. split_and!; [done | exact Hob | done | done |].
  intros row col Hrow Hcol.
  rewrite (printed_C_elem ores (mfma_all a b c) row col) by (done || by rewrite length_mfma_all).
  rewrite (printed_C_elem oc c row col) by done.
  rewrite C_elem_mfma_all by done. unfold mma_elem.
  apply fold_left_ext_in. intros acc k Hk. apply elem_of_seqZ_0 in Hk.
  f_equal. f_equal.
  - unfold printed, A_elem, tile_at.
    destruct (lookup_lt_is_Some_2 a (Z.to_nat (16 * k + row))) as [x Hx]; [lia|].
    rewrite (lookup_total_Some _ _ _ Hx). symmetry. apply lookup_total_Some.
    specialize (Hna (Z.to_nat row) (Z.to_nat k)).
    replace (Z.to_nat (4 * row + k)) with (4 * Z.to_nat row + Z.to_nat k)%nat by lia.
    rewrite Hna by lia.
    by replace (16 * Z.to_nat k + Z.to_nat row)%nat with (Z.to_nat (16 * k + row)) by lia.
  - unfold printed, B_elem, tile_at.
    destruct (lookup_lt_is_Some_2 b (Z.to_nat (16 * k + col))) as [x Hx]; [lia|].
    rewrite (lookup_total_Some _ _ _ Hx). symmetry. apply lookup_total_Some.
    clear -Hb Hx Hk Hcol. explode b Hb.
    assert (k = 0 \/ k = 1 \/ k = 2 \/ k = 3) as Hk' by lia.
    assert (col = 0 \/ col = 1 \/ col = 2 \/ col = 3 \/ col = 4 \/ col = 5 \/ col = 6 \/
            col = 7 \/ col = 8 \/ col = 9 \/ col = 10 \/ col = 11 \/ col = 12 \/
            col = 13 \/ col = 14 \/ col = 15) as Hcl by lia.
    clear Hk Hcol. revert Hx.
    repeat (destruct Hk' as [-> | Hk']); try subst k;
      repeat (destruct Hcl as [-> | Hcl]); try subst col; exact id.
Qed.

Lemma X14_printed_result_witness :
  exists oa ob oc ores,
    print_a_matrix "A matrix" test_a = Ok oa /\
    print_b_matrix "B matrix" test_b = Ok ob /\
    print_c_matrix "C matrix" test_c = Ok oc /\
    print_c_matrix "Result matrix" (mfma_all test_a test_b test_c) = Ok ores /\
    forall row col, 0 <= row < 16 -> 0 <= col < 16 ->
      printed ores (16 * row + col)
      = fold_left (fun acc k => fadd acc (fmul (printed oa (4 * row + k))
                                               (printed ob (16 * k + col))))
                  (seqZ 0 4) (printed oc (16 * row + col)).
Proof.
  apply (X14_printed_result "A matrix" "B matrix" "C matrix" "Result matrix"
           test_a test_b test_c).
  - reflexivity.
  - reflexivity.
  - reflexivity.
Defined.

(** X15.  [main] prints the same text whatever its three arrays held
    before line 112 and however the 64 workers are scheduled: the test
    matrices A, B and C of [init_test_matrices], then the array [c] after
    one instruction on them.  No assertion fails and no array is accessed
    out of bounds; [main] prints the result only once every worker has
    returned. *)
Theorem X15_main_output (a0 b0 : list float) (c0 : list floatx4_t) (sched : list nat) :
  length a0 = 64%nat -> length b0 = 64%nat -> length c0 = 64%nat ->
  exists oa ob oc ores,
    print_a_matrix "A matrix" test_a = Ok oa /\
    print_b_matrix "B matrix" test_b = Ok ob /\
    print_c_matrix "C matrix" test_c = Ok oc /\
    print_c_matrix "Result matrix" (mfma_all test_a test_b test_c) = Ok ores /\
    main a0 b0 c0 sched
    = match run sched (launch test_a test_b test_c) with
      | Ok s => if complete s then Ok (oa ++ ob ++ oc ++ ores) else Blocked
      | _ => Blocked
      end.
Proof.
  intros Ha Hb Hc.
  destruct (print_a_matrix_64 "A matrix" test_a [] eq_refl) as (oa & Hoa & _).
  pose proof (print_b_matrix_64 "B matrix" test_b [] eq_refl) as Hob.
  destruct (print_c_matrix_64 "C matrix" test_c [] eq_refl) as (oc & Hoc & _).
  destruct (print_c_matrix_64 "Result matrix" (mfma_all test_a test_b test_c) [] eq_refl)
    as (ores & Hores & _).
  eexists oa, _, oc, ores. split_and!; [done | exact Hob | done | done |].
  unfold main. rewrite init_test_matrices_any by done.
  cbn [mbind outcome_mbind obind fst snd]. rewrite Hoa, Hob, Hoc.
  cbn [mbind outcome_mbind obind].
  destruct (run_safe test_a test_b test_c eq_refl eq_refl eq_refl sched) as [-> | [s Hrun]];
    [reflexivity|].
  rewrite Hrun. cbn [mbind outcome_mbind obind].
  destruct (complete s) eqn:Hdone; [|reflexivity].
  destruct (complete_result test_a test_b test_c eq_refl eq_refl eq_refl sched s Hrun Hdone)
    as (_ & _ & _ & ->).
  rewrite Hores. reflexivity.
Qed.

Lemma X15_main_output_witness :
  exists oa ob oc ores,
    print_a_matrix "A matrix" test_a = Ok oa /\
    print_b_matrix "B matrix" test_b = Ok ob /\
    print_c_matrix "C matrix" test_c = Ok oc /\
    print_c_matrix "Result matrix" (mfma_all test_a test_b test_c) = Ok ores /\
    main zeros64 zeros64 vzeros64 (round_robin 29)
    = match run (round_robin 29) (launch test_a test_b test_c) with
      | Ok s => if complete s then Ok (oa ++ ob ++ oc ++ ores) else Blocked
      | _ => Blocked
      end.
Proof.
  apply (X15_main_output zeros64 zeros64 vzeros64 (round_robin 29)).
  - reflexivity.
  - reflexivity.
  - reflexivity.
Defined.
